(** * p5sprite: a shallow embedding of [src/p5sprite.js]

    The library is a closure over a handful of mutable variables (three
    registries, the background, the frame callback, the p5 instance) and
    three small classes.  The embedding follows that layout:

    - [JS]        the fragment of JavaScript the code relies on: numbers,
                  [%], array indexing, [typeof], the one regular expression;
    - [Math], [Image], [DOMRect], [P5]
                  the host objects the code talks to (p5.js and [Math] are
                  external: drawing calls are recorded as a trace, and the
                  functions whose results the code uses, [loadImage],
                  [radians], [dist], [Math.cos] and [Math.sin], are fields
                  of the host records);
    - [Sprite], [TextBox], [Element], [InputBox]
                  the three classes, one record and one function per method;
    - [Lib], [exec], [draw], [step]
                  the closure state, the public API and the frame driver.

    Numbers.  JavaScript numbers are IEEE 754 binary64 doubles, and so are
    Rocq's primitive floats: [+], [-], [*], [/] and [<] below are the
    operations of the code, with their rounding, signed zeros, infinities
    and NaN.  The two fields the code only uses as integers ([costumeId],
    an array index, and [layer], a sort key) are integers ([Z]).
    [null]/[undefined] in a nullable field is [None]. *)

From Stdlib Require Import Floats ZArith QArith Uint63 Lia.
From Stdlib Require Import String Ascii Bool Sorted.
From stdpp Require Import base list.

Set Warnings "-register-all".

Local Open Scope float_scope.

(* ------------------------------------------------------------------ *)
(** * The JavaScript fragment *)

Module JS.

(** [a % b] on numbers.  The result is exact (never rounded): NaN when an
    operand is NaN, the dividend infinite or the divisor zero; the dividend
    itself when it is a zero or the divisor is infinite; otherwise the
    remainder of the truncated division, with the sign of the dividend.
    Both operands are scaled to integers over the smaller of the two
    exponents, and the integer remainder, which is below 2^53, is scaled
    back. *)
Definition rem (a b : float) : float :=
  match Prim2SF a, Prim2SF b with
  | S754_nan, _ | _, S754_nan => nan
  | S754_infinity _, _ => nan
  | _, S754_zero _ => nan
  | S754_zero _, _ => a
  | S754_finite _ _ _, S754_infinity _ => a
  | S754_finite sa ma ea, S754_finite _ mb eb =>
      let e := Z.min ea eb in
      let r := Z.modulo (Z.shiftl (Zpos ma) (ea - e))
                        (Z.shiftl (Zpos mb) (eb - e)) in
      SF2Prim match r with
              | Zpos p => S754_finite sa p e
              | _ => S754_zero sa
              end
  end.

(** The double of an integer of magnitude below 2^63 (exact below 2^53). *)
Definition of_Z (n : Z) : float :=
  if (n <? 0)%Z then - of_uint63 (Uint63.of_Z (- n))
  else of_uint63 (Uint63.of_Z n).

(** A double is finite when it is neither NaN nor an infinity. *)
Definition finite (f : float) : bool :=
  match Prim2SF f with
  | S754_finite _ _ _ | S754_zero _ => true
  | _ => false
  end.

(** Every finite double is an integer multiple of 2^-1074; [scaled f] is
    that integer (0 for the values that stand for no number: NaN and the
    infinities). *)
Definition scaled (f : float) : Z :=
  match Prim2SF f with
  | S754_finite s m e => (if s then Zneg m else Zpos m) * 2 ^ (e + 1074)
  | _ => 0
  end.

(** The rational number a finite double stands for. *)
Definition exact (f : float) : Q := Qmake (scaled f) (2 ^ 1074).

(** [a % n] on integers; [None] stands for NaN ([n = 0]).  [Z.rem] is the
    truncated remainder, as in JavaScript. *)
Definition irem (a n : Z) : option Z :=
  if (n =? 0)%Z then None else Some (Z.rem a n).

(** [arr[k]]: an element for an index in range, [undefined] otherwise
    (negative index, index past the end, NaN). *)
Definition index {A : Type} (arr : list A) (k : option Z) : option A :=
  match k with
  | None => None
  | Some k => if (k <? 0)%Z then None else arr !! Z.to_nat k
  end.

(** A parameter with a default value: the default is used when the
    argument is [undefined] (or omitted). *)
Definition param {A : Type} (dflt : A) (arg : option A) : A :=
  match arg with
  | Some a => a
  | None => dflt
  end.

(** Values that reach the API as arguments. *)
Inductive value : Type :=
| VUndefined
| VNull
| VBool (b : bool)
| VNum (r : float)
| VStr (s : string)
| VObj (id : nat).

Definition typeof (v : value) : string :=
  match v with
  | VUndefined => "undefined"
  | VNull => "object"
  | VBool _ => "boolean"
  | VNum _ => "number"
  | VStr _ => "string"
  | VObj _ => "object"
  end.

(** The number a value of type number holds (0 for the other values, on
    which it is not used). *)
Definition number (v : value) : float :=
  match v with
  | VNum r => r
  | _ => 0
  end.

(** A default for a parameter that is passed as a value. *)
Definition vparam (dflt arg : value) : value :=
  match arg with
  | VUndefined => dflt
  | _ => arg
  end.

(** [v != null] (loose inequality: false for [null] and [undefined]). *)
Definition neq_null (v : value) : bool :=
  match v with
  | VUndefined | VNull => false
  | _ => true
  end.

(** ** Regular expressions without repetition

    Enough for [/\.(png|jpe?g|gif|bmp|webp)$/i]. *)
Inductive regex : Type :=
| Eps
| Chr (c : ascii)
| Cat (r1 r2 : regex)
| Alt (r1 r2 : regex)
| Opt (r : regex).

(** The words a regex matches (a finite language: there is no star). *)
Fixpoint words (r : regex) : list string :=
  match r with
  | Eps => [EmptyString]
  | Chr c => [String c EmptyString]
  | Cat r1 r2 =>
      w1 ← words r1; (fun w2 => append w1 w2) <$> words r2
  | Alt r1 r2 => words r1 ++ words r2
  | Opt r => EmptyString :: words r
  end.

(** A literal run of characters. *)
Fixpoint lit (s : string) : regex :=
  match s with
  | EmptyString => Eps
  | String c s' => Cat (Chr c) (lit s')
  end.

(** Case folding of the [i] flag, on ASCII letters. *)
Definition fold_case (c : ascii) : ascii :=
  let n := nat_of_ascii c in
  if ((65 <=? n) && (n <=? 90))%nat then ascii_of_nat (n + 32) else c.

Fixpoint fold_string (s : string) : string :=
  match s with
  | EmptyString => EmptyString
  | String c s' => String (fold_case c) (fold_string s')
  end.

(** [s] ends with [w]. *)
Fixpoint ends_with (w s : string) : bool :=
  if String.eqb w s then true
  else match s with
       | EmptyString => false
       | String _ s' => ends_with w s'
       end.

(** [/r$/i.test(s)] for a lower-case pattern [r]: some word of [r] is a
    suffix of [s], letters compared without case. *)
Definition test_end_i (r : regex) (s : string) : bool :=
  existsb (fun w => ends_with w (fold_string s)) (words r).

End JS.

(* ------------------------------------------------------------------ *)
(** * Host objects *)

(** The two functions of the host's [Math] object the code calls.  The
    language leaves their results to the implementation. *)
Module Math.
Record t : Type := mk { cos : float -> float; sin : float -> float }.
End Math.

(** A [p5.Image]: where it was loaded from and its natural size. *)
Module Image.
Record t : Type := mk { src : JS.value; width : float; height : float }.
End Image.

(** The canvas bounding rectangle; [_recalc] reads [left] and [top]. *)
Module DOMRect.
Record t : Type := mk { left : float; top : float }.
End DOMRect.

Module P5.

Inductive constant : Type := CENTER | LEFT | TOP.

(** The calls the library makes on the p5 instance, recorded in order. *)
Inductive call : Type :=
| push
| pop
| translate (x y : float)
| rotate (angle : float)
| scale (sx sy : float)
| imageMode (m : constant)
| image (img : Image.t) (x y w h : float)
| clear
| background (v : JS.value)
| fill (v : JS.value)
| noStroke
| stroke (v : JS.value)
| textSize (n : JS.value)
| textFont (f : JS.value)
| textAlign (horiz vert : constant)
| text (s : JS.value) (x y : float)
| line (x1 y1 x2 y2 : float)
| rect (x y w h : float)
| frameRate (fps : float)
| loadSound (path : JS.value) (loop : JS.value).

(** The part of the p5 instance the library reads or writes: the canvas
    (absent until [setup] has built it) with its on-screen rectangle, the
    sketch size, the loop flag that [noLoop] clears, and the methods whose
    results the code uses: [loadImage], [radians] and [dist] (host
    functions: what they return is the host's business). *)
Record t : Type := mk {
  canvas : option DOMRect.t;
  width : float;
  height : float;
  _loop : bool;
  loadImage : JS.value -> Image.t;
  radians : float -> float;
  dist : float -> float -> float -> float -> float
}.

Definition noLoop (sk : t) : t :=
  mk (canvas sk) (width sk) (height sk) false (loadImage sk) (radians sk)
     (dist sk).

(** [createCanvas(w, h)] followed by the host laying the canvas out. *)
Definition createCanvas (w h : float) (r : DOMRect.t) (sk : t) : t :=
  mk (Some r) w h (_loop sk) (loadImage sk) (radians sk) (dist sk).

(** Key codes, as p5 defines them. *)
Definition LEFT_ARROW : Z := 37.
Definition UP_ARROW : Z := 38.
Definition RIGHT_ARROW : Z := 39.
Definition DOWN_ARROW : Z := 40.

End P5.

(* ------------------------------------------------------------------ *)
(** * Sprite *)

Module Sprite.

Record t : Type := mk {
  x : float;
  y : float;
  direction : float;
  rotationStyle : string;
  costumeId : Z;
  hidden : bool;
  layer : Z;
  images : list Image.t;
  hitRadius : float;
  scale : float;
  w : option float;
  h : option float
}.

Definition constructor (sk : P5.t) (imgPaths : list JS.value) : t :=
  {| x := 0;
     y := 0;
     direction := 90;
     rotationStyle := "free";
     costumeId := 0;
     hidden := false;
     layer := 0;
     images := P5.loadImage sk <$> imgPaths;
     hitRadius := 40;
     scale := 1;
     w := None;
     h := None |}.

Definition moveTo (nx ny : float) (s : t) : t :=
  mk nx ny (direction s) (rotationStyle s) (costumeId s) (hidden s)
     (layer s) (images s) (hitRadius s) (scale s) (w s) (h s).

Definition stepForward (m : Math.t) (sk : P5.t) (pixels : float) (s : t)
  : t :=
  let r := P5.radians sk (direction s) in
  mk (x s + Math.cos m r * pixels) (y s + Math.sin m r * pixels)
     (direction s) (rotationStyle s) (costumeId s) (hidden s)
     (layer s) (images s) (hitRadius s) (scale s) (w s) (h s).

Definition setScale (k : float) (s : t) : t :=
  mk (x s) (y s) (direction s) (rotationStyle s) (costumeId s) (hidden s)
     (layer s) (images s) (hitRadius s) k (w s) (h s).

Definition setSize (nw nh : float) (s : t) : t :=
  mk (x s) (y s) (direction s) (rotationStyle s) (costumeId s) (hidden s)
     (layer s) (images s) (hitRadius s) (scale s) (Some nw) (Some nh).

Definition touched (sk : P5.t) (s other : t) : bool :=
  P5.dist sk (x s) (y s) (x other) (y other)
  <? hitRadius s + hitRadius other.

(** [this.images[this.costumeId % this.images.length]] *)
Definition costume (s : t) : option Image.t :=
  JS.index (images s) (JS.irem (costumeId s) (Z.of_nat (length (images s)))).

(** The "rotate or flip" step of [_draw]. *)
Definition orient (sk : P5.t) (s : t) : list P5.call :=
  if String.eqb (rotationStyle s) "free" then
    [P5.rotate (P5.radians sk (direction s))]
  else if String.eqb (rotationStyle s) "flipped" then
    let d := JS.rem (JS.rem (direction s) 360 + 360) 360 in
    if (90 <? d) && (d <? 270) then [P5.scale (-1) 1] else []
  else [].

Definition _draw (sk : P5.t) (s : t) : list P5.call :=
  if hidden s then []
  else
    match costume s with
    | None => []
    | Some img =>
        let dw := default (Image.width img * scale s) (w s) in
        let dh := default (Image.height img * scale s) (h s) in
        [P5.push; P5.translate (x s) (y s)]
          ++ orient sk s
          ++ [P5.imageMode P5.CENTER; P5.image img 0 0 dw dh; P5.pop]
    end.

(** Field assignments from user code (the fields are public):
    [s.direction += delta], [s.direction = d], [s.rotationStyle = r],
    [s.costumeId = k], [s.hitRadius = r]. *)
Definition turn (delta : float) (s : t) : t :=
  mk (x s) (y s) (direction s + delta) (rotationStyle s) (costumeId s)
     (hidden s) (layer s) (images s) (hitRadius s) (scale s) (w s) (h s).

Definition set_direction (d : float) (s : t) : t :=
  mk (x s) (y s) d (rotationStyle s) (costumeId s)
     (hidden s) (layer s) (images s) (hitRadius s) (scale s) (w s) (h s).

Definition set_rotationStyle (r : string) (s : t) : t :=
  mk (x s) (y s) (direction s) r (costumeId s)
     (hidden s) (layer s) (images s) (hitRadius s) (scale s) (w s) (h s).

Definition set_costumeId (k : Z) (s : t) : t :=
  mk (x s) (y s) (direction s) (rotationStyle s) k
     (hidden s) (layer s) (images s) (hitRadius s) (scale s) (w s) (h s).

Definition set_hitRadius (r : float) (s : t) : t :=
  mk (x s) (y s) (direction s) (rotationStyle s) (costumeId s)
     (hidden s) (layer s) (images s) r (scale s) (w s) (h s).

End Sprite.

(* ------------------------------------------------------------------ *)
(** * TextBox *)

Module TextBox.

Record t : Type := mk {
  x : float;
  y : float;
  text : JS.value;
  color : JS.value;
  size : JS.value;
  font : JS.value;
  hidden : bool;
  layer : Z
}.

Definition constructor (x y : float) (txt color size font : JS.value) : t :=
  {| x := x;
     y := y;
     text := txt;
     color := JS.vparam (JS.VStr "#fff") color;
     size := JS.vparam (JS.VNum 24) size;
     font := JS.vparam (JS.VStr "sans-serif") font;
     hidden := false;
     layer := 0 |}.

Definition setText (txt : JS.value) (b : t) : t :=
  mk (x b) (y b) txt (color b) (size b) (font b) (hidden b) (layer b).

Definition moveTo (nx ny : float) (b : t) : t :=
  mk nx ny (text b) (color b) (size b) (font b) (hidden b) (layer b).

Definition _draw (b : t) : list P5.call :=
  if hidden b then []
  else [P5.push; P5.fill (color b); P5.noStroke; P5.textSize (size b);
        P5.textFont (font b); P5.textAlign P5.CENTER P5.CENTER;
        P5.text (text b) (x b) (y b); P5.pop].

End TextBox.

(* ------------------------------------------------------------------ *)
(** * InputBox

    The DOM [<input>] element is a record of the properties the class reads
    or writes after construction; a pixel length [`${v}px`] is the number
    [v].  The constant visual styling, the mounting into the document and
    the removal on unload do not touch these properties and are left out. *)

Module Element.
Record t : Type := mk {
  placeholder : string;
  value : string;
  display : option string;
  left : option float;
  top : option float;
  width : option float;
  height : option float
}.
End Element.

Module InputBox.

Record t : Type := mk {
  layer : Z;
  el : Element.t;
  _cx : float;
  _cy : float;
  _w : float;
  _h : float
}.

(** The module-level function [_recalc(ib)]. *)
Definition _recalc (sk : P5.t) (ib : t) : t :=
  match P5.canvas sk with
  | None => ib
  | Some rect =>
      let e := el ib in
      mk (layer ib)
         (Element.mk (Element.placeholder e) (Element.value e)
            (Element.display e)
            (Some (DOMRect.left rect + _cx ib - _w ib / 2))
            (Some (DOMRect.top rect + _cy ib - _h ib / 2))
            (Some (_w ib))
            (Some (_h ib)))
         (_cx ib) (_cy ib) (_w ib) (_h ib)
  end.

Definition constructor (sk : P5.t) (x y w h : float)
    (placeholder : option string) (layer : option Z) : t :=
  _recalc sk
    {| layer := JS.param 0%Z layer;
       el := Element.mk (JS.param EmptyString placeholder) EmptyString
               None None None None None;
       _cx := x; _cy := y; _w := w; _h := h |}.

Definition value (ib : t) : string := Element.value (el ib).

Definition set_value (v : string) (ib : t) : t :=
  let e := el ib in
  mk (layer ib)
     (Element.mk (Element.placeholder e) v (Element.display e)
        (Element.left e) (Element.top e) (Element.width e)
        (Element.height e))
     (_cx ib) (_cy ib) (_w ib) (_h ib).

Definition hidden (ib : t) : bool :=
  match Element.display (el ib) with
  | Some d => String.eqb d "none"
  | None => false
  end.

Definition set_hidden (f : bool) (ib : t) : t :=
  let e := el ib in
  mk (layer ib)
     (Element.mk (Element.placeholder e) (Element.value e)
        (Some (if f then "none" else "block")%string)
        (Element.left e) (Element.top e) (Element.width e)
        (Element.height e))
     (_cx ib) (_cy ib) (_w ib) (_h ib).

Definition moveTo (sk : P5.t) (x y : float) (ib : t) : t :=
  _recalc sk (mk (layer ib) (el ib) x y (_w ib) (_h ib)).

Definition resize (sk : P5.t) (w h : float) (ib : t) : t :=
  _recalc sk (mk (layer ib) (el ib) (_cx ib) (_cy ib) w h).

Definition _sync (sk : P5.t) (ib : t) : t := _recalc sk ib.

End InputBox.

(* ------------------------------------------------------------------ *)
(** * pen and key state *)

Module Pen.

Record t : Type := mk { color : JS.value; fillColor : JS.value }.

Definition drawLine (p : t) (x1 y1 x2 y2 : float) : list P5.call :=
  [P5.push; P5.stroke (color p); P5.line x1 y1 x2 y2; P5.pop].

Definition drawRect (p : t) (x y w h : float) : list P5.call :=
  [P5.push; P5.noStroke; P5.fill (fillColor p); P5.rect x y w h; P5.pop].

End Pen.

Module KeyState.

Record t : Type := mk {
  left : bool; right : bool; up : bool; down : bool; space : bool
}.

Definition _upd (code : Z) (on : bool) (k : t) : t :=
  if (code =? P5.LEFT_ARROW)%Z then mk on (right k) (up k) (down k) (space k)
  else if (code =? P5.RIGHT_ARROW)%Z then
    mk (left k) on (up k) (down k) (space k)
  else if (code =? P5.UP_ARROW)%Z then
    mk (left k) (right k) on (down k) (space k)
  else if (code =? P5.DOWN_ARROW)%Z then
    mk (left k) (right k) (up k) on (space k)
  else if (code =? 32)%Z then mk (left k) (right k) (up k) (down k) on
  else k.

End KeyState.

(* ------------------------------------------------------------------ *)
(** * The closure state and user code *)

(** What user code does to the library, one constructor per exposed
    function, plus method calls and field assignments on the objects the
    factories returned.  An object is named by its position in its registry,
    the one shared copy that both the user's variable and the frame driver
    see.  A frame callback is the list of statements it runs. *)
Module Cmd.

Inductive t : Type :=
| setBackground (val : JS.value)
| createSprite (args : list JS.value)
| createTextBox (x y : float) (txt color size font : JS.value)
| createInputBox (x y : float) (w h : option float) (placeholder : option string)
    (layer : option Z)
| createSound (path loop : JS.value)
| drawText (txt : JS.value) (x y : float) (color size : JS.value)
| forever (fn : option (list t))
| stop
| pen_color (c : JS.value)
| pen_fillColor (c : JS.value)
| pen_drawLine (x1 y1 x2 y2 : float)
| pen_drawRect (x y w h : float)
| sprite (i : nat) (f : Sprite.t -> Sprite.t)
| textBox (i : nat) (f : TextBox.t -> TextBox.t)
| inputBox_moveTo (i : nat) (x y : float)
| inputBox_resize (i : nat) (w h : float)
| inputBox_value (i : nat) (v : string)
| inputBox_hidden (i : nat) (f : bool)
| inputBox_focus (i : nat).

End Cmd.

(** What an observer of the page sees: the calls on the p5 instance, and
    each invocation of the frame callback. *)
Inductive Obs : Type :=
| Drawn (c : P5.call)
| Called (fn : list Cmd.t).

(** The variables of the closure.  [sketchInstance] is assigned once, while
    the script loads and before any function is published on [window]; user
    code therefore never sees it [null], and it is a plain field here. *)
Record Lib : Type := mkLib {
  sprites : list Sprite.t;
  textBoxes : list TextBox.t;
  inputBoxes : list InputBox.t;
  backdropImage : option Image.t;
  bgColor : JS.value;
  gameLoop : option (list Cmd.t);
  sketchInstance : P5.t;
  keyState : KeyState.t;
  pen : Pen.t
}.

Definition canvaX : float := 1280.
Definition canvaY : float := 720.

(** The state right after the script has loaded: empty registries, no
    background, no callback, a looping p5 instance that has no canvas (and
    so no size) yet; the three functions are the host's. *)
Definition initial (loadImage : JS.value -> Image.t)
    (radians : float -> float)
    (dist : float -> float -> float -> float -> float) : Lib :=
  {| sprites := [];
     textBoxes := [];
     inputBoxes := [];
     backdropImage := None;
     bgColor := JS.VNull;
     gameLoop := None;
     sketchInstance := P5.mk None 0 0 true loadImage radians dist;
     keyState := KeyState.mk false false false false false;
     pen := Pen.mk (JS.VStr "#000") (JS.VStr "#000") |}.

(** ** Public utility functions *)

Definition drawText (txt : JS.value) (x y : float) (color size : JS.value)
  : list P5.call :=
  [P5.push; P5.fill (JS.vparam (JS.VStr "#fff") color); P5.noStroke;
   P5.textSize (JS.vparam (JS.VNum 24) size); P5.textAlign P5.LEFT P5.TOP;
   P5.text txt x y; P5.pop].

(** [\.(png|jpe?g|gif|bmp|webp)] *)
Definition image_extension : JS.regex :=
  JS.Cat (JS.Chr ".")
    (JS.Alt (JS.lit "png")
    (JS.Alt (JS.Cat (JS.lit "jp") (JS.Cat (JS.Opt (JS.Chr "e")) (JS.Chr "g")))
    (JS.Alt (JS.lit "gif")
    (JS.Alt (JS.lit "bmp")
            (JS.lit "webp"))))).

(** [typeof val === 'string' && /\.(png|jpe?g|gif|bmp|webp)$/i.test(val)] *)
Definition is_image_path (val : JS.value) : bool :=
  String.eqb (JS.typeof val) "string" &&
  match val with
  | JS.VStr s => JS.test_end_i image_extension s
  | _ => false
  end.

Definition setBackground (val : JS.value) (lib : Lib) : Lib :=
  if is_image_path val then
    mkLib (sprites lib) (textBoxes lib) (inputBoxes lib)
      (Some (P5.loadImage (sketchInstance lib) val)) JS.VNull
      (gameLoop lib) (sketchInstance lib) (keyState lib) (pen lib)
  else
    mkLib (sprites lib) (textBoxes lib) (inputBoxes lib)
      None val
      (gameLoop lib) (sketchInstance lib) (keyState lib) (pen lib).

(** [arguments[i]] *)
Definition argument (args : list JS.value) (i : nat) : JS.value :=
  default JS.VUndefined (args !! i).

(** The sprite [createSprite] builds and moves into place. *)
Definition newSprite (sk : P5.t) (args : list JS.value) : Sprite.t :=
  if String.eqb (JS.typeof (argument args 0)) "number"
     && String.eqb (JS.typeof (argument args 1)) "number"
  then
    Sprite.moveTo (JS.number (argument args 0)) (JS.number (argument args 1))
      (Sprite.constructor sk (drop 2 args))
  else Sprite.moveTo 0 0 (Sprite.constructor sk args).

(** Returns the new state and the new sprite's place in the registry. *)
Definition createSprite (args : list JS.value) (lib : Lib) : Lib * nat :=
  let s := newSprite (sketchInstance lib) args in
  (mkLib (sprites lib ++ [s]) (textBoxes lib) (inputBoxes lib)
     (backdropImage lib) (bgColor lib) (gameLoop lib) (sketchInstance lib)
     (keyState lib) (pen lib),
   length (sprites lib)).

Definition createTextBox (x y : float) (txt color size font : JS.value)
    (lib : Lib) : Lib * nat :=
  let tb := TextBox.constructor x y txt color size font in
  (mkLib (sprites lib) (textBoxes lib ++ [tb]) (inputBoxes lib)
     (backdropImage lib) (bgColor lib) (gameLoop lib) (sketchInstance lib)
     (keyState lib) (pen lib),
   length (textBoxes lib)).

Definition createInputBox (x y : float) (w h : option float)
    (placeholder : option string) (layer : option Z) (lib : Lib)
  : Lib * nat :=
  let ib := InputBox.constructor (sketchInstance lib) x y
              (JS.param 200 w) (JS.param 28 h) placeholder layer in
  (mkLib (sprites lib) (textBoxes lib) (inputBoxes lib ++ [ib])
     (backdropImage lib) (bgColor lib) (gameLoop lib) (sketchInstance lib)
     (keyState lib) (pen lib),
   length (inputBoxes lib)).

Definition createSound (path loop : JS.value) : list P5.call :=
  [P5.loadSound path (JS.vparam (JS.VBool false) loop)].

Definition forever (fn : option (list Cmd.t)) (lib : Lib) : Lib :=
  mkLib (sprites lib) (textBoxes lib) (inputBoxes lib) (backdropImage lib)
    (bgColor lib) fn (sketchInstance lib) (keyState lib) (pen lib).

Definition stop (lib : Lib) : Lib :=
  mkLib (sprites lib) (textBoxes lib) (inputBoxes lib) (backdropImage lib)
    (bgColor lib) (gameLoop lib) (P5.noLoop (sketchInstance lib))
    (keyState lib) (pen lib).

(** ** Updates of the shared objects *)

Definition with_sprites (f : list Sprite.t -> list Sprite.t) (lib : Lib)
  : Lib :=
  mkLib (f (sprites lib)) (textBoxes lib) (inputBoxes lib)
    (backdropImage lib) (bgColor lib) (gameLoop lib) (sketchInstance lib)
    (keyState lib) (pen lib).

Definition with_textBoxes (f : list TextBox.t -> list TextBox.t) (lib : Lib)
  : Lib :=
  mkLib (sprites lib) (f (textBoxes lib)) (inputBoxes lib)
    (backdropImage lib) (bgColor lib) (gameLoop lib) (sketchInstance lib)
    (keyState lib) (pen lib).

Definition with_inputBoxes (f : list InputBox.t -> list InputBox.t)
    (lib : Lib) : Lib :=
  mkLib (sprites lib) (textBoxes lib) (f (inputBoxes lib))
    (backdropImage lib) (bgColor lib) (gameLoop lib) (sketchInstance lib)
    (keyState lib) (pen lib).

Definition with_pen (f : Pen.t -> Pen.t) (lib : Lib) : Lib :=
  mkLib (sprites lib) (textBoxes lib) (inputBoxes lib) (backdropImage lib)
    (bgColor lib) (gameLoop lib) (sketchInstance lib) (keyState lib)
    (f (pen lib)).

(** ** One statement of user code *)

Definition exec (c : Cmd.t) (lib : Lib) : Lib * list Obs :=
  match c with
  | Cmd.setBackground val => (setBackground val lib, [])
  | Cmd.createSprite args => (fst (createSprite args lib), [])
  | Cmd.createTextBox x y txt color size font =>
      (fst (createTextBox x y txt color size font lib), [])
  | Cmd.createInputBox x y w h placeholder layer =>
      (fst (createInputBox x y w h placeholder layer lib), [])
  | Cmd.createSound path loop => (lib, Drawn <$> createSound path loop)
  | Cmd.drawText txt x y color size =>
      (lib, Drawn <$> drawText txt x y color size)
  | Cmd.forever fn => (forever fn lib, [])
  | Cmd.stop => (stop lib, [])
  | Cmd.pen_color c => (with_pen (fun p => Pen.mk c (Pen.fillColor p)) lib, [])
  | Cmd.pen_fillColor c => (with_pen (fun p => Pen.mk (Pen.color p) c) lib, [])
  | Cmd.pen_drawLine x1 y1 x2 y2 =>
      (lib, Drawn <$> Pen.drawLine (pen lib) x1 y1 x2 y2)
  | Cmd.pen_drawRect x y w h =>
      (lib, Drawn <$> Pen.drawRect (pen lib) x y w h)
  | Cmd.sprite i f => (with_sprites (alter f i) lib, [])
  | Cmd.textBox i f => (with_textBoxes (alter f i) lib, [])
  | Cmd.inputBox_moveTo i x y =>
      (with_inputBoxes (alter (InputBox.moveTo (sketchInstance lib) x y) i)
         lib, [])
  | Cmd.inputBox_resize i w h =>
      (with_inputBoxes (alter (InputBox.resize (sketchInstance lib) w h) i)
         lib, [])
  | Cmd.inputBox_value i v =>
      (with_inputBoxes (alter (InputBox.set_value v) i) lib, [])
  | Cmd.inputBox_hidden i f =>
      (with_inputBoxes (alter (InputBox.set_hidden f) i) lib, [])
  | Cmd.inputBox_focus i => (lib, [])
  end.

(** A block of statements, run in order. *)
Fixpoint run (cs : list Cmd.t) (lib : Lib) : Lib * list Obs :=
  match cs with
  | [] => (lib, [])
  | c :: cs' =>
      let (lib1, t1) := exec c lib in
      let (lib2, t2) := run cs' lib1 in
      (lib2, t1 ++ t2)
  end.

(** ** The frame driver *)

(** [xs.slice().sort((a, b) => a.layer - b.layer)]: a stable sort of a copy,
    ascending by layer. *)
Fixpoint insert_by {A : Type} (key : A -> Z) (a : A) (l : list A) : list A :=
  match l with
  | [] => [a]
  | b :: l' =>
      if (key a <=? key b)%Z then a :: b :: l' else b :: insert_by key a l'
  end.

Definition sort_by {A : Type} (key : A -> Z) (l : list A) : list A :=
  foldr (insert_by key) [] l.

(** [sk.draw].  The background is composed from the state before the
    callback runs; sprites and text boxes are drawn from the state it leaves.
    [_sync] writes to each input box in place, so whatever order the sorted
    copy is walked in, every box of the registry ends up re-aligned. *)
Definition draw (lib : Lib) : Lib * list Obs :=
  let sk := sketchInstance lib in
  let bg :=
    match backdropImage lib with
    | Some img =>
        P5.image img (P5.width sk / 2) (P5.height sk / 2)
          (P5.width sk) (P5.height sk)
    | None =>
        if JS.neq_null (bgColor lib) then P5.background (bgColor lib)
        else P5.background (JS.VNum 30)
    end in
  let (lib1, t1) :=
    match gameLoop lib with
    | Some fn => let (l, t) := run fn lib in (l, Called fn :: t)
    | None => (lib, [])
    end in
  let t2 :=
    s ← sort_by Sprite.layer (sprites lib1);
    Sprite._draw (sketchInstance lib1) s in
  let t3 := b ← sort_by TextBox.layer (textBoxes lib1); TextBox._draw b in
  (with_inputBoxes (fmap (InputBox._sync (sketchInstance lib1))) lib1,
   (Drawn <$> [P5.clear; bg]) ++ t1 ++ (Drawn <$> t2 ++ t3)).

(** [sk.setup]; [r] is where the host lays the new canvas out. *)
Definition setup (r : DOMRect.t) (lib : Lib) : Lib * list Obs :=
  (mkLib (sprites lib) (textBoxes lib) (inputBoxes lib) (backdropImage lib)
     (bgColor lib) (gameLoop lib)
     (P5.createCanvas canvaX canvaY r (sketchInstance lib))
     (keyState lib) (pen lib),
   Drawn <$> [P5.frameRate 60; P5.imageMode P5.CENTER;
              P5.textFont (JS.VStr "sans-serif")]).

Definition _upd (code : Z) (on : bool) (lib : Lib) : Lib :=
  mkLib (sprites lib) (textBoxes lib) (inputBoxes lib) (backdropImage lib)
    (bgColor lib) (gameLoop lib) (sketchInstance lib)
    (KeyState._upd code on (keyState lib)) (pen lib).

(** What happens on the page: user code calls the library, the host builds
    the canvas, delivers a key event, or reaches the next animation frame. *)
Inductive Event : Type :=
| Call (c : Cmd.t)
| Setup (r : DOMRect.t)
| KeyPressed (keyCode : Z)
| KeyReleased (keyCode : Z)
| Frame.

(** Modelled from the spec: p5's animation loop is not part of the
    repository.  The spec's frame driver ticks "while running", and
    [stop()] leaves the running state through p5's [noLoop()]: a frame
    calls [sk.draw] when the instance's loop flag is set and does nothing
    otherwise. *)
Definition frame (lib : Lib) : Lib * list Obs :=
  if P5._loop (sketchInstance lib) then draw lib else (lib, []).

Definition step (e : Event) (lib : Lib) : Lib * list Obs :=
  match e with
  | Call c => exec c lib
  | Setup r => setup r lib
  | KeyPressed code => (_upd code true lib, [])
  | KeyReleased code => (_upd code false lib, [])
  | Frame => frame lib
  end.

Fixpoint steps (es : list Event) (lib : Lib) : Lib * list Obs :=
  match es with
  | [] => (lib, [])
  | e :: es' =>
      let (lib1, t1) := step e lib in
      let (lib2, t2) := steps es' lib1 in
      (lib2, t1 ++ t2)
  end.

(** How many times the trace shows the frame callback being invoked. *)
Fixpoint callbacks (tr : list Obs) : nat :=
  match tr with
  | [] => 0
  | Called _ :: tr' => S (callbacks tr')
  | Drawn _ :: tr' => callbacks tr'
  end.

(* ------------------------------------------------------------------ *)
(** * Notions the specification uses *)


(** The heading as [_draw] normalises it, every step in doubles. *)
Definition normalize360 (d : float) : float :=
  JS.rem (JS.rem d 360 + 360) 360.

(** Whether [_draw] mirrors a flip-only sprite of heading [d]. *)
Definition faces_left (d : float) : bool :=
  (90 <? normalize360 d) && (normalize360 d <? 270).

(** The integer headings from -3600 to 3600: ten turns either way. *)
Definition integer_headings : list Z := seqZ (-3600) 7201.

(** [n] times [d += delta]. *)
Definition add_repeatedly (n : nat) (delta d : float) : float :=
  Nat.iter n (fun d' => d' + delta) d.

(** What a rendering did to the drawing context, read off its trace: the
    angles it rotated by and the factors it scaled by, in order. *)
Definition rotations (tr : list P5.call) : list float :=
  omap (fun c => match c with P5.rotate a => Some a | _ => None end) tr.

Definition scalings (tr : list P5.call) : list (float * float) :=
  omap (fun c => match c with P5.scale sx sy => Some (sx, sy) | _ => None end)
       tr.

(** The images a rendering drew, each with the size it was drawn at. *)
Definition drawn_images (tr : list P5.call) : list (Image.t * (float * float)) :=
  omap (fun c =>
          match c with
          | P5.image img _ _ w h => Some (img, (w, h))
          | _ => None
          end) tr.

(** The methods of a sprite that user code calls. *)
Module Method.
Inductive t : Type :=
| moveTo (x y : float)
| stepForward (pixels : float)
| setScale (k : float)
| setSize (w h : float).
End Method.

Definition invoke (math : Math.t) (sk : P5.t) (m : Method.t) (s : Sprite.t)
  : Sprite.t :=
  match m with
  | Method.moveTo x y => Sprite.moveTo x y s
  | Method.stepForward d => Sprite.stepForward math sk d s
  | Method.setScale k => Sprite.setScale k s
  | Method.setSize w h => Sprite.setSize w h s
  end.

(** The methods of [ms] called one after the other, first to last. *)
Definition invoke_all (math : Math.t) (sk : P5.t) (ms : list Method.t)
    (s : Sprite.t) : Sprite.t :=
  foldl (fun s m => invoke math sk m s) s ms.

(** The arguments of the most recent [setSize] among [ms], if any. *)
Fixpoint last_setSize (ms : list Method.t) : option (float * float) :=
  match ms with
  | [] => None
  | m :: ms' =>
      match last_setSize ms', m with
      | Some wh, _ => Some wh
      | None, Method.setSize w h => Some (w, h)
      | None, _ => None
      end
  end.

(** The extensions [setBackground] takes for an image. *)
Definition image_extensions : list string :=
  ["png"; "jpg"; "jpeg"; "gif"; "bmp"; "webp"]%string.

(** [s] ends in a dot and a recognised extension, in any letter case. *)
Definition ends_in_image_extension (s : string) : Prop :=
  exists stem ext : string,
    s = append stem (String "." ext) /\
    In (JS.fold_string ext) image_extensions.

(** The value is a string naming an image. *)
Definition names_image (val : JS.value) : Prop :=
  exists s : string, val = JS.VStr s /\ ends_in_image_extension s.

(** The two background states, as [sk.draw] tests them. *)
Definition backdrop_active (lib : Lib) : bool :=
  match backdropImage lib with Some _ => true | None => false end.

Definition color_active (lib : Lib) : bool := JS.neq_null (bgColor lib).

(** The element [e] sits where the alignment rule puts a box of centre
    [(cx, cy)] and size [w] by [h] for a canvas at [rect]. *)
Definition placed (rect : DOMRect.t) (cx cy w h : float) (e : Element.t)
  : Prop :=
  Element.left e = Some (DOMRect.left rect + cx - w / 2) /\
  Element.top e = Some (DOMRect.top rect + cy - h / 2) /\
  Element.width e = Some w /\
  Element.height e = Some h.

(** The heading of the sprite at place [i] of the registry. *)
Definition heading (lib : Lib) (i : nat) : option float :=
  Sprite.direction <$> sprites lib !! i.

(** The page after [n] ticks, each a call of [sk.draw]. *)
Definition ticks (n : nat) (lib : Lib) : Lib :=
  Nat.iter n (fun l => fst (draw l)) lib.

(* ------------------------------------------------------------------ *)
(** * Sample data

    The demo page of the repository, on a host where every image is 200 by
    120 pixels and the canvas sits at the top-left corner of the window. *)

Definition demo_loader (path : JS.value) : Image.t := Image.mk path 200 120.

(** [Math.PI], the double 3.141592653589793. *)
Definition PI : float := 0x1.921fb54442d18p+1.

(** [radians] as p5 1.x computes it: the angle times the constant
    [Math.PI / 180]. *)
Definition demo_radians (deg : float) : float := deg * (PI / 180).

(** A [dist] for the examples: the root of the sum of the squares of the
    coordinate differences, each step rounded. *)
Definition demo_dist (x1 y1 x2 y2 : float) : float :=
  let dx := x2 - x1 in
  let dy := y2 - y1 in
  PrimFloat.sqrt (dx * dx + dy * dy).

(** A [Math] for the examples: the first terms of the two power series.
    The examples evaluate it at 0 only, where every host returns
    [cos 0 = 1] and [sin 0 = 0]. *)
Definition demo_math : Math.t :=
  Math.mk (fun x => 1 - x * x / 2 + x * x * x * x / 24)
          (fun x => x - x * x * x / 6).

Definition demo_page : Lib := initial demo_loader demo_radians demo_dist.

Definition demo_sketch : P5.t := sketchInstance demo_page.

(** [createSprite(600, 450, '../demo/koding.png')] *)
Definition logo_args : list JS.value :=
  [JS.VNum 600; JS.VNum 450; JS.VStr "../demo/koding.png"].

Definition logo : Sprite.t := newSprite (sketchInstance demo_page) logo_args.

Definition logo_image : Image.t :=
  demo_loader (JS.VStr "../demo/koding.png").

(** [forever(() => { logo.direction += 1; })] with [logo] the first sprite. *)
Definition spin : list Cmd.t := [Cmd.sprite 0 (Sprite.turn 1)].

(** The page after [createSprite], [logo.setScale(0.5)] and [forever]. *)
Definition demo_running : Lib :=
  fst (steps [Call (Cmd.createSprite logo_args);
              Call (Cmd.sprite 0 (Sprite.setScale 0.5));
              Call (Cmd.forever (Some spin))] demo_page).

(** The canvas at the origin of the window. *)
Definition at_origin : DOMRect.t := DOMRect.mk 0 0.

Definition demo_canvas : P5.t :=
  P5.createCanvas canvaX canvaY at_origin (sketchInstance demo_page).

(** The demo sprite in flip-only mode, facing [d] degrees. *)
Definition facing (d : float) : Sprite.t :=
  Sprite.set_direction d (Sprite.set_rotationStyle "flipped" logo).

(** A sprite with three costumes. *)
Definition walker : Sprite.t :=
  Sprite.constructor (sketchInstance demo_page)
    [JS.VStr "walk0.png"; JS.VStr "walk1.png"; JS.VStr "walk2.png"].

(** Two sprites with the default radius of 40, 80 pixels apart. *)
Definition ball_a : Sprite.t :=
  Sprite.moveTo 0 0 (Sprite.constructor (sketchInstance demo_page) []).

Definition ball_b : Sprite.t :=
  Sprite.moveTo 48 64 (Sprite.constructor (sketchInstance demo_page) []).

(** Two small sprites on the x axis: radius 0.1 at 0, and radius 0.7 at
    0.7999999999999999 (the double just below 0.8). *)
Definition grain_a : Sprite.t :=
  Sprite.set_hitRadius 0x1.999999999999ap-4 ball_a.

Definition grain_b : Sprite.t :=
  Sprite.set_hitRadius 0x1.6666666666666p-1
    (Sprite.moveTo 0x1.9999999999999p-1 0 ball_a).

(** The double just above 90, 90.00000000000001, and the double just
    below 270, 269.99999999999994. *)
Definition just_above_90 : float := 0x1.6800000000001p+6.

Definition just_below_270 : float := 0x1.0dfffffffffffp+8.

(** The demo sprite facing right (heading 0), and the same sprite far out
    at x = 1e17, where neighbouring doubles are 16 apart. *)
Definition logo_facing_right : Sprite.t := Sprite.set_direction 0 logo.

Definition logo_far_out : Sprite.t := Sprite.moveTo 1e17 450 logo_facing_right.

(** 2^53, from where adding 1 to a double changes nothing. *)
Definition two_to_53 : float := 9007199254740992.

(** The demo page with the logo's heading set to 2^53. *)
Definition demo_huge_heading : Lib :=
  fst (exec (Cmd.sprite 0 (Sprite.set_direction two_to_53)) demo_running).

(* ------------------------------------------------------------------ *)
(** * Reading a frame's trace *)

(** The p5 calls of a trace, in order. *)
Definition calls (tr : list Obs) : list P5.call :=
  omap (fun o => match o with Drawn c => Some c | Called _ => None end) tr.

(** The callbacks a trace shows being invoked, in order. *)
Definition invoked (tr : list Obs) : list (list Cmd.t) :=
  omap (fun o => match o with Called fn => Some fn | Drawn _ => None end) tr.

(** The calls that change the drawing state (the transform and the
    styles) that [push] saves and [pop] restores. *)
Definition sets_state (c : P5.call) : bool :=
  match c with
  | P5.translate _ _ | P5.rotate _ | P5.scale _ _ | P5.imageMode _
  | P5.fill _ | P5.noStroke | P5.stroke _
  | P5.textSize _ | P5.textFont _ | P5.textAlign _ _ => true
  | _ => false
  end.

(** The number of drawing contexts saved and not yet restored after the
    calls [tr], starting from [d] saved ones; [None] when a [pop] finds
    nothing to restore, or when a call changes the drawing state while no
    context is saved (the change would outlive the calls). *)
Fixpoint saved (tr : list P5.call) (d : nat) : option nat :=
  match tr with
  | [] => Some d
  | P5.push :: tr' => saved tr' (S d)
  | P5.pop :: tr' =>
      match d with
      | O => None
      | S d' => saved tr' d'
      end
  | c :: tr' =>
      if sets_state c && Nat.eqb d 0 then None else saved tr' d
  end.

(** Every [push] is closed by a later [pop], no [pop] comes first, and
    the drawing state is changed only between a [push] and its [pop]. *)
Definition balanced (tr : list P5.call) : Prop := saved tr 0 = Some 0%nat.

(** What a sprite shows when rendered: nothing when hidden or without a
    costume, otherwise its costume and the size it is drawn at. *)
Definition appearance (s : Sprite.t) : option (Image.t * (float * float)) :=
  if Sprite.hidden s then None
  else
    img ← Sprite.costume s;
    Some (img,
          (default (Image.width img * Sprite.scale s) (Sprite.w s),
           default (Image.height img * Sprite.scale s) (Sprite.h s))).

(** The backdrop as a frame draws it: stretched over the canvas. *)
Definition backdrop_appearance (lib : Lib) : list (Image.t * (float * float)) :=
  match backdropImage lib with
  | Some img =>
      [(img, (P5.width (sketchInstance lib), P5.height (sketchInstance lib)))]
  | None => []
  end.

(** The state the frame callback, if any, leaves behind. *)
Definition after_callback (lib : Lib) : Lib :=
  match gameLoop lib with
  | Some fn => fst (run fn lib)
  | None => lib
  end.

(** The call a frame composes the background with. *)
Definition background_call (lib : Lib) : P5.call :=
  let sk := sketchInstance lib in
  match backdropImage lib with
  | Some img =>
      P5.image img (P5.width sk / 2) (P5.height sk / 2)
        (P5.width sk) (P5.height sk)
  | None =>
      if JS.neq_null (bgColor lib) then P5.background (bgColor lib)
      else P5.background (JS.VNum 30)
  end.

(** The part of a frame's trace that the callback accounts for. *)
Definition callback_trace (lib : Lib) : list Obs :=
  match gameLoop lib with
  | Some fn => Called fn :: snd (run fn lib)
  | None => []
  end.

(** No registry of [after] is shorter than it is in [before]. *)
Definition grown (before after : Lib) : Prop :=
  (length (sprites before) <= length (sprites after))%nat /\
  (length (textBoxes before) <= length (textBoxes after))%nat /\
  (length (inputBoxes before) <= length (inputBoxes after))%nat.

(** Ascending order of a sort key. *)
Definition ascending {A : Type} (key : A -> Z) (a b : A) : Prop :=
  (key a <= key b)%Z.

(** An input box whose element sits where the alignment rule puts it. *)
Definition aligned (rect : DOMRect.t) (ib : InputBox.t) : Prop :=
  placed rect (InputBox._cx ib) (InputBox._cy ib) (InputBox._w ib)
    (InputBox._h ib) (InputBox.el ib).

(** An element that was never positioned. *)
Definition unpositioned (e : Element.t) : Prop :=
  Element.left e = None /\ Element.top e = None /\
  Element.width e = None /\ Element.height e = None.

(** The demo page once [setup] has built the canvas. *)
Definition demo_ready : Lib := fst (setup at_origin demo_page).

(** The demo page with a callback that turns the logo once and stops. *)
Definition one_shot : list Cmd.t := [Cmd.sprite 0 (Sprite.turn 1); Cmd.stop].

Definition demo_one_shot : Lib := forever (Some one_shot) demo_running.

(** The canvas after the window has scrolled by 30 pixels. *)
Definition demo_canvas_scrolled : P5.t :=
  P5.createCanvas canvaX canvaY (DOMRect.mk 0 (-30))
    (sketchInstance demo_page).

(** A page on which an input box is created before the canvas exists. *)
Definition early_box_page : Lib :=
  fst (createInputBox 600 720 (Some 400) (Some 32) None None demo_page).


(* ================================================================== *)
(** * Properties *)

(** ** Numbers *)

Lemma digits2_pos_bounds (m : positive) :
  (2 ^ (Zpos (digits2_pos m) - 1) <= Zpos m < 2 ^ Zpos (digits2_pos m))%Z.
Proof.
  induction m as [m IH|m IH|]; cbn [digits2_pos].
  - rewrite Pos2Z.inj_succ, Z.pow_succ_r by lia.
    replace (Z.succ (Zpos (digits2_pos m)) - 1)%Z
      with (Z.succ (Zpos (digits2_pos m) - 1)) by lia.
    rewrite Z.pow_succ_r by lia. lia.
  - rewrite Pos2Z.inj_succ, Z.pow_succ_r by lia.
    replace (Z.succ (Zpos (digits2_pos m)) - 1)%Z
      with (Z.succ (Zpos (digits2_pos m) - 1)) by lia.
    rewrite Z.pow_succ_r by lia. lia.
  - cbn. lia.
Qed.

(** The shape of a finite double that is not a zero: an integer below
    2^53 times a power of two no smaller than 2^-1074, the integer being
    at least 2^52 unless the power is the smallest. *)
Lemma finite_shape (f : float) (s : bool) (m : positive) (e : Z) :
  Prim2SF f = S754_finite s m e ->
  (-1074 <= e <= 971)%Z /\ (Zpos m < 2 ^ 53)%Z /\
  (e = -1074 \/ 2 ^ 52 <= Zpos m)%Z.
Proof.
  intros Hf. pose proof (Prim2SF_valid f) as Hv. rewrite Hf in Hv.
  unfold valid_binary, bounded, canonical_mantissa, fexp, SpecFloat.emin,
    prec, emax in Hv.
  apply andb_prop in Hv as [Hc He].
  apply Z.eqb_eq in Hc. apply Z.leb_le in He.
  pose proof (digits2_pos_bounds m) as [Hlo Hhi].
  set (dg := Zpos (digits2_pos m)) in *.
  assert (Hdg : (dg <= 53)%Z) by lia.
  split; [lia|]. split.
  - eapply Z.lt_le_trans; [exact Hhi|]. apply Z.pow_le_mono_r; lia.
  - destruct (Z.eq_dec e (-1074)%Z) as [?|Hne]; [left; assumption|right].
    assert (dg = 53%Z) as Hd by lia. rewrite Hd in Hlo. exact Hlo.
Qed.

Lemma scaled_order (m1 m2 : positive) (e1 e2 : Z) :
  (-1074 <= e1)%Z -> (e1 < e2)%Z -> (Zpos m1 < 2 ^ 53)%Z ->
  (2 ^ 52 <= Zpos m2)%Z ->
  (Zpos m1 * 2 ^ (e1 + 1074) < Zpos m2 * 2 ^ (e2 + 1074))%Z.
Proof.
  intros He1 He H1 H2.
  replace (e2 + 1074)%Z with ((e2 - e1 - 1) + 1 + (e1 + 1074))%Z by lia.
  rewrite (Z.pow_add_r 2 (e2 - e1 - 1 + 1) (e1 + 1074)) by lia.
  rewrite (Z.pow_add_r 2 (e2 - e1 - 1) 1) by lia.
  assert (0 < 2 ^ (e1 + 1074))%Z by (apply Z.pow_pos_nonneg; lia).
  assert (0 < 2 ^ (e2 - e1 - 1))%Z by (apply Z.pow_pos_nonneg; lia).
  change (2 ^ 1)%Z with 2%Z.
  rewrite Z.mul_assoc. apply Z.mul_lt_mono_pos_r; [assumption|].
  change (2 ^ 53)%Z with (2 ^ 52 * 2)%Z in H1. nia.
Qed.

(** Comparing two finite doubles is comparing the numbers they stand
    for. *)
Lemma compare_scaled (a b : float) :
  JS.finite a = true -> JS.finite b = true ->
  SFcompare (Prim2SF a) (Prim2SF b) = Some (JS.scaled a ?= JS.scaled b)%Z.
Proof.
  unfold JS.finite, JS.scaled. intros Ha Hb.
  destruct (Prim2SF a) as [sa|sa| |sa ma ea] eqn:Ea; try discriminate Ha;
    destruct (Prim2SF b) as [sb|sb| |sb mb eb] eqn:Eb; try discriminate Hb.
  - reflexivity.
  - destruct (finite_shape b sb mb eb Eb) as (He & _ & _).
    assert (0 < 2 ^ (eb + 1074))%Z by (apply Z.pow_pos_nonneg; lia).
    cbn [SFcompare]. f_equal. symmetry.
    destruct sb; [apply Z.compare_gt_iff | apply Z.compare_lt_iff]; nia.
  - destruct (finite_shape a sa ma ea Ea) as (He & _ & _).
    assert (0 < 2 ^ (ea + 1074))%Z by (apply Z.pow_pos_nonneg; lia).
    cbn [SFcompare]. f_equal. symmetry.
    destruct sa; [apply Z.compare_lt_iff | apply Z.compare_gt_iff]; nia.
  - destruct (finite_shape a sa ma ea Ea) as (Hea & Hma & Hna).
    destruct (finite_shape b sb mb eb Eb) as (Heb & Hmb & Hnb).
    assert (0 < 2 ^ (ea + 1074))%Z by (apply Z.pow_pos_nonneg; lia).
    assert (0 < 2 ^ (eb + 1074))%Z by (apply Z.pow_pos_nonneg; lia).
    cbn [SFcompare]. f_equal. symmetry.
    destruct sa, sb.
    + destruct (Z.compare_spec ea eb) as [->|Hlt|Hgt].
      * change (Pos.compare_cont Eq ma mb) with (Pos.compare ma mb).
        rewrite Pos2Z.inj_compare.
        destruct (Z.compare_spec (Zpos ma) (Zpos mb)) as [Hm|Hm|Hm]; cbn [CompOpp].
        -- injection Hm as ->. apply Z.compare_refl.
        -- apply Z.compare_gt_iff. nia.
        -- apply Z.compare_lt_iff. nia.
      * apply Z.compare_gt_iff.
        assert (Zpos ma * 2 ^ (ea + 1074) < Zpos mb * 2 ^ (eb + 1074))%Z
          by (apply scaled_order; lia).
        lia.
      * apply Z.compare_lt_iff.
        assert (Zpos mb * 2 ^ (eb + 1074) < Zpos ma * 2 ^ (ea + 1074))%Z
          by (apply scaled_order; lia).
        lia.
    + apply Z.compare_lt_iff. nia.
    + apply Z.compare_gt_iff. nia.
    + destruct (Z.compare_spec ea eb) as [->|Hlt|Hgt].
      * change (Pos.compare_cont Eq ma mb) with (Pos.compare ma mb).
        rewrite Pos2Z.inj_compare.
        destruct (Z.compare_spec (Zpos ma) (Zpos mb)) as [Hm|Hm|Hm].
        -- injection Hm as ->. apply Z.compare_refl.
        -- apply Z.compare_lt_iff. nia.
        -- apply Z.compare_gt_iff. nia.
      * apply Z.compare_lt_iff. apply scaled_order; lia.
      * apply Z.compare_gt_iff. apply scaled_order; lia.
Qed.


(** [==] on finite doubles is the equality of the numbers. *)
Lemma eqb_exact (a b : float) :
  JS.finite a = true -> JS.finite b = true ->
  (a =? b) = true <-> (JS.exact a == JS.exact b)%Q.
Proof.
  intros Ha Hb. rewrite FloatAxioms.eqb_spec. unfold SFeqb.
  rewrite (compare_scaled a b Ha Hb). unfold JS.exact, Qeq. cbn [Qnum Qden].
  destruct (Z.compare_spec (JS.scaled a) (JS.scaled b)); split;
    intros; try discriminate; try reflexivity; nia.
Qed.


(** [%] as the language defines it, on a few operands: the sign follows
    the dividend, the result is exact however far apart the operands are,
    and a zero divisor gives NaN. *)
Example rem_examples :
  JS.rem 5.5 2 = 1.5 /\
  JS.rem (-1) 3 = -1 /\
  JS.rem (-7.5) 2 = -1.5 /\
  JS.rem (-360) 360 = -0 /\
  JS.rem 450 360 = 90 /\
  JS.rem 720.5 360 = 0.5 /\
  JS.rem 1e22 360 = 280 /\
  JS.rem 0x1.999999999999ap-4 0x1.eb851eb851eb8p-6 = 0x1.47ae147ae148p-7 /\
  JS.rem 0x1.1ccf385ebc8ap+1023 0x1.4f8b588e368f1p-17 = 0x1.74b249c0673ccp-19 /\
  JS.rem 0x1p-1074 3 = 0x1p-1074 /\
  JS.rem 7 0 = nan /\
  JS.rem infinity 3 = nan /\
  JS.rem 7 infinity = 7.
Proof. repeat split; reflexivity. Qed.

(** The numbers of a few doubles: 0.5 and -3 are what they read, 0.1 is
    not a tenth. *)
Example exact_examples :
  (JS.exact 0.5 == 1 # 2)%Q /\
  (JS.exact (-3) == -3)%Q /\
  (JS.exact 0x1.999999999999ap-4
   == 3602879701896397 # 36028797018963968)%Q /\
  (JS.exact 1e17 == 100000000000000000)%Q /\
  JS.finite infinity = false /\ JS.finite nan = false.
Proof. repeat split; vm_compute; reflexivity. Qed.

(** On the integer headings of ten turns either way, [_draw]'s
    normalisation gives the integer modulo 360, the test for facing left
    is the test on that integer, and 360 additions of 1 add 360. *)
Lemma normalize360_integers :
  forallb (fun n => PrimFloat.Leibniz.eqb (normalize360 (JS.of_Z n))
                      (JS.of_Z (n mod 360)))
    integer_headings = true.
Proof. vm_compute. reflexivity. Qed.

Lemma faces_left_integers :
  forallb (fun n => Bool.eqb (faces_left (JS.of_Z n))
                      ((90 <? n mod 360)%Z && (n mod 360 <? 270)%Z))
    integer_headings = true.
Proof. vm_compute. reflexivity. Qed.

Lemma add_360_integers :
  forallb (fun n => PrimFloat.Leibniz.eqb (add_repeatedly 360 1 (JS.of_Z n))
                      (JS.of_Z (n + 360)))
    integer_headings = true.
Proof. vm_compute. reflexivity. Qed.

Lemma in_integer_headings (n : Z) :
  (-3600 <= n <= 3600)%Z -> In n integer_headings.
Proof.
  intros Hn. apply list_elem_of_In. unfold integer_headings.
  apply elem_of_seqZ. lia.
Qed.

(** ** Sprite geometry *)



(** One pixel closer, they do. *)
Example touching_inside :
  Sprite.touched demo_sketch ball_a (Sprite.moveTo 48 63 ball_b) = true.
Proof. reflexivity. Qed.


(** The same on every host whose [dist] returns the distance of the two
    grains, which is a double. *)
Lemma touched_misses_on_every_host (sk : P5.t) :
  P5.dist sk 0 0 0x1.9999999999999p-1 0 = 0x1.9999999999999p-1 ->
  Sprite.touched sk grain_a grain_b = false.
Proof.
  intros Hd. unfold Sprite.touched.
  change ((P5.dist sk 0 0 0x1.9999999999999p-1 0
           <? 0x1.9999999999999ap-4 + 0x1.6666666666666p-1) = false).
  rewrite Hd. reflexivity.
Qed.

(** C4.  [stepForward(d)] replaces the position by the doubles
    [x + cos(t) * d] and [y + sin(t) * d], each product and each sum
    rounded, [t] being what the host's [radians] returns for the stored
    heading; the heading is left as it is, and the two products do not
    depend on where the sprite stood. *)
Theorem stepForward_displacement (m : Math.t) (sk : P5.t) (d : float)
    (s : Sprite.t) :
  let t := P5.radians sk (Sprite.direction s) in
  Sprite.x (Sprite.stepForward m sk d s) = Sprite.x s + Math.cos m t * d /\
  Sprite.y (Sprite.stepForward m sk d s) = Sprite.y s + Math.sin m t * d /\
  Sprite.direction (Sprite.stepForward m sk d s) = Sprite.direction s /\
  forall x0 y0 : float,
    let s0 := Sprite.moveTo x0 y0 s in
    Sprite.x (Sprite.stepForward m sk d s0) = x0 + Math.cos m t * d /\
    Sprite.y (Sprite.stepForward m sk d s0) = y0 + Math.sin m t * d.
Proof.
  cbv zeta. repeat split.
Qed.

(** The demo sprite turned to heading 0: ten steps forward take it from
    (600, 450) to (610, 450). *)
Lemma logo_steps_forward :
  Sprite.x (Sprite.stepForward demo_math demo_sketch 10 logo_facing_right)
  = 610 /\
  Sprite.y (Sprite.stepForward demo_math demo_sketch 10 logo_facing_right)
  = 450.
Proof.
  destruct (stepForward_displacement demo_math demo_sketch 10
              logo_facing_right) as (Hx & Hy & _).
  rewrite Hx, Hy. split; reflexivity.
Defined.

(** The sums are rounded.  At heading 0 one step forward is the
    displacement (1, 0); it takes the sprite from x = 600 to x = 601, and
    leaves a sprite at x = 1e17 where it is: there the doubles are 16
    apart. *)
Lemma stepForward_far_out_stays :
  (JS.exact (Math.cos demo_math (P5.radians demo_sketch 0) * 1) == 1)%Q /\
  (JS.exact (Math.sin demo_math (P5.radians demo_sketch 0) * 1) == 0)%Q /\
  Sprite.x (Sprite.stepForward demo_math demo_sketch 1 logo_facing_right)
  = 601 /\
  Sprite.x logo_far_out = 1e17 /\
  Sprite.x (Sprite.stepForward demo_math demo_sketch 1 logo_far_out) = 1e17.
Proof.
  repeat split; vm_compute; reflexivity.
Qed.

(** The same on every host that converts heading 0 to the angle 0 and
    has [cos 0 = 1], as the language requires. *)
Lemma stepForward_far_out_on_every_host (m : Math.t) (sk : P5.t) :
  P5.radians sk 0 = 0 -> Math.cos m 0 = 1 ->
  Sprite.x (Sprite.stepForward m sk 1 logo_far_out) = Sprite.x logo_far_out.
Proof.
  intros Hr Hc.
  change (1e17 + Math.cos m (P5.radians sk 0) * 1 = 1e17).
  rewrite Hr, Hc. reflexivity.
Qed.

(** ** Costumes *)

Lemma irem_nonneg (a n : Z) :
  (0 <= a)%Z -> (0 < n)%Z -> JS.irem a n = Some (a mod n)%Z.
Proof.
  intros Ha Hn. unfold JS.irem.
  destruct (Z.eqb_spec n 0) as [->|_]; [lia|].
  rewrite Z.rem_mod_nonneg by lia. reflexivity.
Qed.

(** For an index that is not negative, rendering picks the costume at the
    index modulo the number of costumes. *)
Lemma costume_wraps (s : Sprite.t) :
  Sprite.images s <> [] ->
  (0 <= Sprite.costumeId s)%Z ->
  Sprite.costume s
  = Sprite.images s
      !! Z.to_nat (Sprite.costumeId s mod Z.of_nat (length (Sprite.images s))).
Proof.
  intros Himg Hid. unfold Sprite.costume.
  assert (Hn : (0 < Z.of_nat (length (Sprite.images s)))%Z).
  { destruct (Sprite.images s); [congruence | cbn [length]; lia]. }
  rewrite irem_nonneg by assumption. unfold JS.index.
  pose proof (Z.mod_pos_bound (Sprite.costumeId s) _ Hn) as Hb.
  destruct (Z.ltb_spec (Sprite.costumeId s mod Z.of_nat (length (Sprite.images s))) 0);
    [lia | reflexivity].
Qed.

(** Index N selects what index 0 selects. *)
Lemma costume_count_is_first (s : Sprite.t) :
  Sprite.costume
    (Sprite.set_costumeId (Z.of_nat (length (Sprite.images s))) s)
  = Sprite.costume (Sprite.set_costumeId 0 s).
Proof.
  destruct (Sprite.images s) as [|img imgs] eqn:Himg.
  - unfold Sprite.costume. cbn. rewrite Himg. reflexivity.
  - rewrite !costume_wraps; cbn [Sprite.set_costumeId Sprite.images Sprite.costumeId];
      rewrite ?Himg; try congruence; try lia.
    rewrite Z.mod_same, Z.mod_0_l by (cbn [length]; lia). reflexivity.
Qed.

(** A negative index that is not a multiple of the number of costumes
    selects nothing, and the sprite is not drawn, although the index modulo
    the number of costumes is the position of a costume. *)
Lemma negative_costume_index_skipped (sk : P5.t) (s : Sprite.t) :
  let n := Z.of_nat (length (Sprite.images s)) in
  Sprite.images s <> [] ->
  (Sprite.costumeId s < 0)%Z ->
  (Sprite.costumeId s mod n <> 0)%Z ->
  Sprite.costume s = None /\
  Sprite._draw sk s = [] /\
  is_Some (Sprite.images s !! Z.to_nat (Sprite.costumeId s mod n)).
Proof.
  intros n Himg Hneg Hmod.
  assert (Hn : (0 < n)%Z).
  { unfold n. destruct (Sprite.images s); [congruence | cbn [length]; lia]. }
  assert (Hc : Sprite.costume s = None).
  { unfold Sprite.costume, JS.irem. fold n.
    destruct (Z.eqb_spec n 0) as [?|_]; [lia|]. unfold JS.index.
    pose proof (Z.rem_nonpos (Sprite.costumeId s) n ltac:(lia) ltac:(lia)).
    assert (Z.rem (Sprite.costumeId s) n <> 0)%Z.
    { rewrite Z.rem_divide, <- Z.mod_divide by lia. exact Hmod. }
    destruct (Z.ltb_spec (Z.rem (Sprite.costumeId s) n) 0); [reflexivity | lia]. }
  split; [exact Hc|]. split.
  - unfold Sprite._draw. rewrite Hc. destruct (Sprite.hidden s); reflexivity.
  - apply lookup_lt_is_Some.
    pose proof (Z.mod_pos_bound (Sprite.costumeId s) n Hn). unfold n in *. lia.
Qed.

(** C2 (what the code does on a negative index).  With three costumes and
    the index set to -1, [%] yields -1, the array has nothing there and
    [_draw] returns without drawing, though -1 modulo 3 is 2 and a costume
    sits at position 2. *)
Theorem negative_costume_index_draws_nothing (sk : P5.t) :
  let s := Sprite.set_costumeId (-1) walker in
  ((-1) mod 3 = 2)%Z /\
  Sprite.images s !! 2%nat
    = Some (demo_loader (JS.VStr "walk2.png")) /\
  Sprite.hidden s = false /\
  Sprite.costume s = None /\
  Sprite._draw sk s = [].
Proof.
  cbv zeta. repeat split.
Qed.


(** ** Rendering a sprite *)

(** What [_draw] does for a sprite that is shown and has a costume. *)
Lemma draw_shown (sk : P5.t) (s : Sprite.t) (img : Image.t) :
  Sprite.hidden s = false ->
  Sprite.costume s = Some img ->
  Sprite._draw sk s
  = [P5.push; P5.translate (Sprite.x s) (Sprite.y s)]
      ++ Sprite.orient sk s
      ++ [P5.imageMode P5.CENTER;
          P5.image img 0 0
            (default (Image.width img * Sprite.scale s) (Sprite.w s))
            (default (Image.height img * Sprite.scale s) (Sprite.h s));
          P5.pop].
Proof.
  intros Hh Hc. unfold Sprite._draw. rewrite Hh, Hc. reflexivity.
Qed.

Lemma draw_hidden (sk : P5.t) (s : Sprite.t) :
  Sprite.hidden s = true -> Sprite._draw sk s = [].
Proof. intros Hh. unfold Sprite._draw. rewrite Hh. reflexivity. Qed.

Lemma orient_free (sk : P5.t) (s : Sprite.t) :
  Sprite.rotationStyle s = "free"%string ->
  Sprite.orient sk s = [P5.rotate (P5.radians sk (Sprite.direction s))].
Proof. intros Hr. unfold Sprite.orient. rewrite Hr. reflexivity. Qed.

Lemma orient_flipped (sk : P5.t) (s : Sprite.t) :
  Sprite.rotationStyle s = "flipped"%string ->
  Sprite.orient sk s
  = if faces_left (Sprite.direction s) then [P5.scale (-1) 1] else [].
Proof. intros Hr. unfold Sprite.orient. rewrite Hr. reflexivity. Qed.

(** The orientation step draws no image. *)
Lemma orient_draws_no_image (sk : P5.t) (s : Sprite.t) :
  drawn_images (Sprite.orient sk s) = [].
Proof.
  unfold Sprite.orient.
  repeat match goal with |- context [if ?c then _ else _] => destruct c end;
    reflexivity.
Qed.

(** On an integer heading of up to ten turns either way, the sprite faces
    left exactly when the heading modulo 360 lies strictly between 90 and
    270. *)
Lemma faces_left_integer (n : Z) :
  (-3600 <= n <= 3600)%Z ->
  faces_left (JS.of_Z n) = true <-> (90 < n mod 360 < 270)%Z.
Proof.
  intros Hn.
  pose proof (proj1 (forallb_forall _ _) faces_left_integers n
                (in_integer_headings n Hn)) as H.
  cbv beta in H. apply eqb_prop in H. rewrite H.
  rewrite andb_true_iff, !Z.ltb_lt. reflexivity.
Qed.

(** C3.  The calls that render a sprite that is shown and has a costume,
    in order.  In flip-only mode: save, translate, then [scale(-1, 1)] if
    the sprite faces left (the heading, taken [% 360], plus 360, [% 360],
    each step in doubles, is above 90 and below 270) and nothing if not,
    then the image, restore; no rotation.  In free mode: save, translate,
    rotate by what [radians] returns for the heading, the image, restore;
    no scaling.  On an integer heading of up to ten turns either way the
    sprite faces left exactly when the heading modulo 360 lies strictly
    between 90 and 270. *)
Theorem flip_or_rotate (sk : P5.t) (s : Sprite.t) (img : Image.t) :
  Sprite.hidden s = false ->
  Sprite.costume s = Some img ->
  let dw := default (Image.width img * Sprite.scale s) (Sprite.w s) in
  let dh := default (Image.height img * Sprite.scale s) (Sprite.h s) in
  (Sprite.rotationStyle s = "flipped"%string ->
   Sprite._draw sk s
   = [P5.push; P5.translate (Sprite.x s) (Sprite.y s)]
       ++ (if faces_left (Sprite.direction s) then [P5.scale (-1) 1] else [])
       ++ [P5.imageMode P5.CENTER; P5.image img 0 0 dw dh; P5.pop]) /\
  (Sprite.rotationStyle s = "free"%string ->
   Sprite._draw sk s
   = [P5.push; P5.translate (Sprite.x s) (Sprite.y s);
      P5.rotate (P5.radians sk (Sprite.direction s));
      P5.imageMode P5.CENTER; P5.image img 0 0 dw dh; P5.pop]) /\
  (forall n : Z,
     (-3600 <= n <= 3600)%Z ->
     Sprite.direction s = JS.of_Z n ->
     faces_left (Sprite.direction s) = true <-> (90 < n mod 360 < 270)%Z).
Proof.
  intros Hh Hc. cbv zeta. rewrite (draw_shown sk s img Hh Hc).
  split; [|split].
  - intros Hr. rewrite (orient_flipped sk s Hr). reflexivity.
  - intros Hr. rewrite (orient_free sk s Hr). reflexivity.
  - intros n Hn ->. apply faces_left_integer. exact Hn.
Qed.

(** Heading 91 mirrors; headings 89 and 271 do not; -269, which is 91 one
    turn back, does. *)
Lemma flip_only_at_91_89_271 :
  Sprite._draw demo_sketch (facing 91)
  = [P5.push; P5.translate 600 450; P5.scale (-1) 1;
     P5.imageMode P5.CENTER; P5.image logo_image 0 0 200 120; P5.pop] /\
  Sprite._draw demo_sketch (facing 89)
  = [P5.push; P5.translate 600 450;
     P5.imageMode P5.CENTER; P5.image logo_image 0 0 200 120; P5.pop] /\
  Sprite._draw demo_sketch (facing 271)
  = [P5.push; P5.translate 600 450;
     P5.imageMode P5.CENTER; P5.image logo_image 0 0 200 120; P5.pop] /\
  Sprite._draw demo_sketch (facing (-269))
  = [P5.push; P5.translate 600 450; P5.scale (-1) 1;
     P5.imageMode P5.CENTER; P5.image logo_image 0 0 200 120; P5.pop].
Proof.
  split; [|split; [|split]].
  - destruct (flip_or_rotate demo_sketch (facing 91) logo_image
                eq_refl eq_refl) as (Hf & _ & Hn).
    rewrite (Hf eq_refl).
    rewrite (proj2 (Hn 91%Z ltac:(split; discriminate) eq_refl)) by (split; reflexivity).
    reflexivity.
  - destruct (flip_or_rotate demo_sketch (facing 89) logo_image
                eq_refl eq_refl) as (Hf & _ & _).
    rewrite (Hf eq_refl). reflexivity.
  - destruct (flip_or_rotate demo_sketch (facing 271) logo_image
                eq_refl eq_refl) as (Hf & _ & _).
    rewrite (Hf eq_refl). reflexivity.
  - destruct (flip_or_rotate demo_sketch (facing (-269)) logo_image
                eq_refl eq_refl) as (Hf & _ & Hn).
    rewrite (Hf eq_refl).
    rewrite (proj2 (Hn (-269)%Z ltac:(split; discriminate) eq_refl)) by (split; reflexivity).
    reflexivity.
Defined.

(** The normalisation rounds.  The heading 90.00000000000001 is a number
    of [0, 360) strictly between 90 and 270, and so is 269.99999999999994;
    adding 360 rounds the first to 450 and the second to 630, and [_draw]
    takes them for 90 and 270: neither sprite is mirrored. *)
Lemma headings_next_to_90_and_270_are_not_mirrored :
  (90 < JS.exact just_above_90)%Q /\ (JS.exact just_above_90 < 270)%Q /\
  (90 < JS.exact just_below_270)%Q /\ (JS.exact just_below_270 < 270)%Q /\
  normalize360 just_above_90 = 90 /\
  normalize360 just_below_270 = 270 /\
  Sprite._draw demo_sketch (facing just_above_90)
  = [P5.push; P5.translate 600 450;
     P5.imageMode P5.CENTER; P5.image logo_image 0 0 200 120; P5.pop] /\
  Sprite._draw demo_sketch (facing just_below_270)
  = [P5.push; P5.translate 600 450;
     P5.imageMode P5.CENTER; P5.image logo_image 0 0 200 120; P5.pop].
Proof.
  repeat split; vm_compute; reflexivity.
Qed.

(** ** Draw size *)

(** The methods leave visibility and costumes alone. *)
Lemma invoke_keeps_costume (math : Math.t) (sk : P5.t) (m : Method.t)
    (s : Sprite.t) :
  Sprite.hidden (invoke math sk m s) = Sprite.hidden s /\
  Sprite.costume (invoke math sk m s) = Sprite.costume s.
Proof. destruct m; split; reflexivity. Qed.

Lemma invoke_all_cons (math : Math.t) (sk : P5.t) (m : Method.t)
    (ms : list Method.t) (s : Sprite.t) :
  invoke_all math sk (m :: ms) s = invoke_all math sk ms (invoke math sk m s).
Proof. reflexivity. Qed.

(** The size override after a run of method calls is the one the last
    [setSize] wrote, or the one the sprite had if there was none. *)
Lemma override_after (math : Math.t) (sk : P5.t) (ms : list Method.t)
    (s : Sprite.t) :
  (Sprite.w (invoke_all math sk ms s), Sprite.h (invoke_all math sk ms s))
  = match last_setSize ms with
    | Some (w, h) => (Some w, Some h)
    | None => (Sprite.w s, Sprite.h s)
    end.
Proof.
  revert s. induction ms as [|m ms IH]; intros s; [reflexivity|].
  rewrite invoke_all_cons, IH. cbn [last_setSize].
  destruct (last_setSize ms) as [[w h]|]; [reflexivity|].
  destruct m; reflexivity.
Qed.

(** C5.  Take a sprite with no size override (as [createSprite] returns
    it), call any methods on it, and render it: if it is shown and has a
    costume, exactly one image is drawn, at the size of the most recent
    [setSize] when there was one, and otherwise at the costume's natural
    size times the current scale. *)
Theorem rendered_size (math : Math.t) (sk : P5.t) (s0 : Sprite.t)
    (ms : list Method.t) (img : Image.t) :
  Sprite.w s0 = None ->
  Sprite.h s0 = None ->
  let s := invoke_all math sk ms s0 in
  Sprite.hidden s = false ->
  Sprite.costume s = Some img ->
  drawn_images (Sprite._draw sk s)
  = [(img,
      match last_setSize ms with
      | Some size => size
      | None => (Image.width img * Sprite.scale s,
                 Image.height img * Sprite.scale s)
      end)].
Proof.
  intros Hw Hh s Hs Hc.
  rewrite (draw_shown sk s img Hs Hc).
  unfold drawn_images at 1. rewrite !omap_app.
  fold (drawn_images (Sprite.orient sk s)).
  rewrite orient_draws_no_image. cbn.
  pose proof (override_after math sk ms s0) as Ho. fold s in Ho.
  rewrite Hw, Hh in Ho.
  destruct (last_setSize ms) as [[w h]|]; injection Ho as -> ->; reflexivity.
Qed.

(** The scenario of the specification: the demo sprite at scale 0.5 is
    drawn at half the natural 200 by 120; after [setSize(100, 50)] it is
    drawn at 100 by 50, whatever the scale is or becomes. *)
Lemma logo_rendered_size :
  drawn_images
    (Sprite._draw demo_sketch
       (invoke_all demo_math demo_sketch [Method.setScale (1 / 2)] logo))
  = [(logo_image, (200 * (1 / 2), 120 * (1 / 2)))] /\
  drawn_images
    (Sprite._draw demo_sketch
       (invoke_all demo_math demo_sketch
          [Method.setScale (1 / 2); Method.setSize 100 50; Method.setScale 3]
          logo))
  = [(logo_image, (100, 50))].
Proof.
  split.
  - exact (rendered_size demo_math demo_sketch logo
             [Method.setScale (1 / 2)] logo_image
             eq_refl eq_refl eq_refl eq_refl).
  - exact (rendered_size demo_math demo_sketch logo
             [Method.setScale (1 / 2); Method.setSize 100 50;
              Method.setScale 3]
             logo_image eq_refl eq_refl eq_refl eq_refl).
Defined.

(** For a sprite made by [createSprite] with at least one image source the
    two side conditions hold by construction. *)
Lemma created_sprite_is_drawn (math : Math.t) (sk : P5.t) (x y : float)
    (path : JS.value) (paths : list JS.value) (ms : list Method.t) :
  let s := invoke_all math sk ms
             (newSprite sk (JS.VNum x :: JS.VNum y :: path :: paths)) in
  Sprite.hidden s = false /\ Sprite.costume s = Some (P5.loadImage sk path).
Proof.
  cbv zeta.
  set (s0 := newSprite sk _).
  assert (H0 : Sprite.hidden s0 = false /\
               Sprite.costume s0 = Some (P5.loadImage sk path)).
  { split; reflexivity. }
  clearbody s0. revert s0 H0.
  induction ms as [|m ms IH]; intros s0 H0; [exact H0|].
  rewrite invoke_all_cons. apply IH.
  destruct (invoke_keeps_costume math sk m s0) as [-> ->]. exact H0.
Qed.


(** ** The background *)

Lemma ends_with_spec (w s : string) :
  JS.ends_with w s = true <-> exists pre : string, s = append pre w.
Proof.
  induction s as [|c s IH]; cbn [JS.ends_with].
  - destruct (String.eqb_spec w EmptyString) as [->|Hne]; split.
    + intros _. exists EmptyString. reflexivity.
    + reflexivity.
    + discriminate.
    + intros [pre Hpre]. destruct pre; cbn in Hpre; [congruence | discriminate].
  - destruct (String.eqb_spec w (String c s)) as [->|Hne]; split.
    + intros _. exists EmptyString. reflexivity.
    + reflexivity.
    + intros H. apply IH in H as [pre ->]. exists (String c pre). reflexivity.
    + intros [pre Hpre]. destruct pre as [|c' pre]; cbn in Hpre.
      * congruence.
      * injection Hpre as _ ->. apply IH. exists pre. reflexivity.
Qed.

Lemma fold_string_app (a b : string) :
  JS.fold_string (append a b) = append (JS.fold_string a) (JS.fold_string b).
Proof. induction a as [|c a IH]; cbn; [|rewrite IH]; reflexivity. Qed.

(** A suffix of a folded string is the folding of a suffix. *)
Lemma fold_string_split (p w s : string) :
  JS.fold_string s = append p w ->
  exists s1 s2 : string,
    s = append s1 s2 /\ JS.fold_string s1 = p /\ JS.fold_string s2 = w.
Proof.
  revert s. induction p as [|c p IH]; intros s H.
  - exists EmptyString, s. auto.
  - destruct s as [|c' s]; [discriminate H|].
    cbn in H. injection H as Hc Hs.
    destruct (IH s Hs) as (s1 & s2 & -> & <- & <-).
    exists (String c' s1), s2. cbn. rewrite Hc. auto.
Qed.

(** Folding the case never produces or loses a dot. *)
Lemma fold_case_dot (c : ascii) : JS.fold_case c = "."%char -> c = "."%char.
Proof.
  destruct c as [[] [] [] [] [] [] [] []]; vm_compute; intros H;
    first [reflexivity | discriminate H].
Qed.

(** The pattern matches a dot followed by one of the six extensions. *)
Lemma words_image_extension :
  JS.words image_extension = String "."%char <$> image_extensions.
Proof. reflexivity. Qed.

Lemma test_image_extension (s : string) :
  JS.test_end_i image_extension s = true <-> ends_in_image_extension s.
Proof.
  unfold JS.test_end_i, ends_in_image_extension.
  rewrite existsb_exists, words_image_extension. split.
  - intros (w & Hw & Hend).
    apply in_map_iff in Hw as (e & <- & He).
    apply ends_with_spec in Hend as [pre Hpre].
    apply fold_string_split in Hpre as (s1 & s2 & -> & _ & Hs2).
    destruct s2 as [|c ext]; [discriminate Hs2|].
    cbn in Hs2. injection Hs2 as Hc Hext.
    apply fold_case_dot in Hc as ->.
    exists s1, ext. rewrite Hext. auto.
  - intros (stem & ext & -> & He).
    exists (String "."%char (JS.fold_string ext)). split.
    + apply in_map. exact He.
    + apply ends_with_spec. exists (JS.fold_string stem).
      rewrite fold_string_app. reflexivity.
Qed.

Lemma is_image_path_spec (val : JS.value) :
  is_image_path val = true <-> names_image val.
Proof.
  unfold names_image.
  destruct val as [| |b|r|s|o];
    try (split; [discriminate | intros (s' & Hs & _); discriminate Hs]).
  change (is_image_path (JS.VStr s)) with (JS.test_end_i image_extension s).
  rewrite test_image_extension. split.
  - intros H. exists s. auto.
  - intros (s' & Hs & H). injection Hs as ->. exact H.
Qed.

(** C6.  A call of [setBackground]: a string ending in a recognised image
    extension (any letter case) installs the backdrop image and clears the
    colour; any other value installs the colour and clears the backdrop; so
    the two are never active together afterwards. *)
Theorem setBackground_exclusive (val : JS.value) (lib : Lib) :
  let lib' := setBackground val lib in
  (names_image val ->
     backdropImage lib' = Some (P5.loadImage (sketchInstance lib) val) /\
     bgColor lib' = JS.VNull) /\
  (~ names_image val ->
     bgColor lib' = val /\ backdropImage lib' = None) /\
  backdrop_active lib' && color_active lib' = false.
Proof.
  cbv zeta. unfold setBackground, backdrop_active, color_active.
  destruct (is_image_path val) eqn:Hp.
  - apply is_image_path_spec in Hp. cbn. repeat split; tauto.
  - assert (Hn : ~ names_image val).
    { intros H. apply is_image_path_spec in H. congruence. }
    cbn. repeat split; tauto.
Qed.

(** The demo's ['#222'] is a colour; an upper-case [.PNG] is an image and
    clears it; a later colour clears the image. *)
Lemma background_colour_then_image :
  let lib1 := setBackground (JS.VStr "#222") demo_page in
  let lib2 := setBackground (JS.VStr "img/Sky.PNG") lib1 in
  let lib3 := setBackground (JS.VNum 30) lib2 in
  (bgColor lib1 = JS.VStr "#222" /\ backdropImage lib1 = None) /\
  (backdropImage lib2 = Some (demo_loader (JS.VStr "img/Sky.PNG")) /\
   bgColor lib2 = JS.VNull) /\
  (bgColor lib3 = JS.VNum 30 /\ backdropImage lib3 = None).
Proof.
  cbv zeta.
  assert (Himg : names_image (JS.VStr "img/Sky.PNG")).
  { apply is_image_path_spec. reflexivity. }
  assert (Hcol : ~ names_image (JS.VStr "#222")).
  { intros H. apply is_image_path_spec in H. discriminate H. }
  assert (Hnum : ~ names_image (JS.VNum 30)).
  { intros H. apply is_image_path_spec in H. discriminate H. }
  split; [|split].
  - exact (proj1 (proj2 (setBackground_exclusive _ _)) Hcol).
  - exact (proj1 (setBackground_exclusive _ _) Himg).
  - exact (proj1 (proj2 (setBackground_exclusive _ _)) Hnum).
Defined.

(** ** Input boxes *)

Lemma recalc_without_canvas (sk : P5.t) (ib : InputBox.t) :
  P5.canvas sk = None -> InputBox._recalc sk ib = ib.
Proof. intros Hc. unfold InputBox._recalc. rewrite Hc. reflexivity. Qed.

(** Alignment writes to the element only. *)
Lemma recalc_keeps_logical (sk : P5.t) (ib : InputBox.t) :
  InputBox._cx (InputBox._recalc sk ib) = InputBox._cx ib /\
  InputBox._cy (InputBox._recalc sk ib) = InputBox._cy ib /\
  InputBox._w (InputBox._recalc sk ib) = InputBox._w ib /\
  InputBox._h (InputBox._recalc sk ib) = InputBox._h ib.
Proof.
  unfold InputBox._recalc. destruct (P5.canvas sk); repeat split; reflexivity.
Qed.

(** C7.  When the canvas exists, with bounding rectangle [rect], every
    recomputation of the alignment ([_recalc] itself, and through it the
    constructor, [moveTo], [resize] and the per-frame [_sync]) leaves the
    element at left = rect.left + cx - w/2, top = rect.top + cy - h/2, with
    width w and height h, for the logical centre and size then in force. *)
Theorem recalc_places_element (sk : P5.t) (rect : DOMRect.t)
    (ib : InputBox.t) :
  P5.canvas sk = Some rect ->
  placed rect (InputBox._cx ib) (InputBox._cy ib) (InputBox._w ib)
    (InputBox._h ib) (InputBox.el (InputBox._recalc sk ib)) /\
  placed rect (InputBox._cx ib) (InputBox._cy ib) (InputBox._w ib)
    (InputBox._h ib) (InputBox.el (InputBox._sync sk ib)) /\
  (forall x y : float,
     placed rect x y (InputBox._w ib) (InputBox._h ib)
       (InputBox.el (InputBox.moveTo sk x y ib))) /\
  (forall w h : float,
     placed rect (InputBox._cx ib) (InputBox._cy ib) w h
       (InputBox.el (InputBox.resize sk w h ib))) /\
  (forall (x y w h : float) (placeholder : option string) (layer : option Z),
     placed rect x y w h
       (InputBox.el (InputBox.constructor sk x y w h placeholder layer))).
Proof.
  intros Hc.
  unfold placed, InputBox._sync, InputBox.moveTo, InputBox.resize,
    InputBox.constructor, InputBox._recalc.
  rewrite Hc. cbn. repeat split.
Qed.

(** The scenario of the specification: a box created at (600, 720) with
    size 400 by 32, the canvas at the window's origin. *)
Lemma input_box_at_600_720 :
  let e := InputBox.el
             (InputBox.constructor demo_canvas 600 720 400 32
                (Some "Say something"%string) None) in
  Element.left e = Some 400 /\
  Element.top e = Some 704 /\
  Element.width e = Some 400 /\
  Element.height e = Some 32.
Proof.
  cbv zeta.
  destruct (recalc_places_element demo_canvas at_origin
              (InputBox.constructor demo_canvas 0 0 0 0 None None) eq_refl)
    as (_ & _ & _ & _ & Hnew).
  destruct (Hnew 600 720 400 32 (Some "Say something"%string) None)
    as (Hl & Ht & Hw & Hh).
  rewrite Hl, Ht, Hw, Hh. repeat split; reflexivity.
Defined.

(** Through the factory, omitted sizes default to 200 by 28. *)
Example createInputBox_default_size :
  let lib := fst (setup at_origin demo_page) in
  let e := InputBox.el
             <$> inputBoxes (fst (createInputBox 100 14 None None None None lib))
                 !! 0%nat in
  (Element.width <$> e) = Some (Some 200) /\
  (Element.height <$> e) = Some (Some 28).
Proof. cbv zeta. split; reflexivity. Qed.

(** ** Creating sprites *)

(** The two call styles of [createSprite]: a list of arguments that starts
    with two numbers gives the position and the image sources after them;
    any other list gives the position (0, 0) and is all image sources. *)
Lemma newSprite_positioned (sk : P5.t) (x y : float) (rest : list JS.value) :
  newSprite sk (JS.VNum x :: JS.VNum y :: rest)
  = Sprite.moveTo x y (Sprite.constructor sk rest).
Proof. reflexivity. Qed.

Lemma newSprite_unpositioned (sk : P5.t) (args : list JS.value) :
  (forall (x y : float) (rest : list JS.value),
     args <> JS.VNum x :: JS.VNum y :: rest) ->
  newSprite sk args = Sprite.moveTo 0 0 (Sprite.constructor sk args).
Proof.
  intros Hne.
  destruct args as [|a [|b rest]];
    [reflexivity | destruct a; reflexivity |].
  destruct a as [| |b0|x0|s0|o0]; try reflexivity;
    destruct b as [| |b1|x1|s1|o1]; try reflexivity.
  destruct (Hne x0 x1 rest). reflexivity.
Qed.

(** C10.  The sprite [createSprite] returns (found in the registry at the
    returned place) has heading 90, rotation style free, costume index 0,
    is shown, on layer 0, with hit radius 40, scale 1 and no size override.
    When the arguments are two numbers followed by image sources it stands
    at the two numbers and its costumes are loaded from the sources after
    them; for every other list of arguments it stands at (0, 0) and its
    costumes are loaded from all the arguments. *)
Theorem createSprite_defaults (args : list JS.value) (lib : Lib) :
  exists s : Sprite.t,
    sprites (fst (createSprite args lib)) !! snd (createSprite args lib)
    = Some s /\
    Sprite.direction s = 90 /\
    Sprite.rotationStyle s = "free"%string /\
    Sprite.costumeId s = 0%Z /\
    Sprite.hidden s = false /\
    Sprite.layer s = 0%Z /\
    Sprite.hitRadius s = 40 /\
    Sprite.scale s = 1 /\
    Sprite.w s = None /\
    Sprite.h s = None /\
    (forall (x y : float) (rest : list JS.value),
       args = JS.VNum x :: JS.VNum y :: rest ->
       Sprite.x s = x /\ Sprite.y s = y /\
       Sprite.images s = P5.loadImage (sketchInstance lib) <$> rest) /\
    ((forall (x y : float) (rest : list JS.value),
        args <> JS.VNum x :: JS.VNum y :: rest) ->
     Sprite.x s = 0 /\ Sprite.y s = 0 /\
     Sprite.images s = P5.loadImage (sketchInstance lib) <$> args).
Proof.
  exists (newSprite (sketchInstance lib) args). split.
  { cbn. apply list_lookup_middle. reflexivity. }
  assert (Hd : forall sk l x0 y0,
             let s := Sprite.moveTo x0 y0 (Sprite.constructor sk l) in
             Sprite.direction s = 90 /\
             Sprite.rotationStyle s = "free"%string /\
             Sprite.costumeId s = 0%Z /\
             Sprite.hidden s = false /\
             Sprite.layer s = 0%Z /\
             Sprite.hitRadius s = 40 /\
             Sprite.scale s = 1 /\
             Sprite.w s = None /\
             Sprite.h s = None).
  { intros. cbv zeta. repeat split. }
  assert (Hs : exists l x0 y0,
             newSprite (sketchInstance lib) args
             = Sprite.moveTo x0 y0 (Sprite.constructor (sketchInstance lib) l)).
  { unfold newSprite. destruct (_ && _); eauto. }
  destruct Hs as (l & x0 & y0 & Hs).
  destruct (Hd (sketchInstance lib) l x0 y0)
    as (H1 & H2 & H3 & H4 & H5 & H6 & H7 & H8 & H9).
  rewrite <- Hs in H1, H2, H3, H4, H5, H6, H7, H8, H9. clear Hs Hd.
  repeat (split; [assumption|]). split.
  - intros x y rest ->. rewrite newSprite_positioned. repeat split.
  - intros Hne. rewrite (newSprite_unpositioned _ _ Hne). repeat split.
Qed.

(** The demo's [createSprite(600, 450, '../demo/koding.png')] on the fresh
    page: the sprite is the first of the registry, stands at (600, 450),
    heads to 90 and has the one costume. *)
Lemma createSprite_on_the_demo_page :
  exists s : Sprite.t,
    sprites (fst (createSprite logo_args demo_page)) !! 0%nat = Some s /\
    Sprite.x s = 600 /\ Sprite.y s = 450 /\
    Sprite.direction s = 90 /\
    Sprite.images s = [logo_image].
Proof.
  destruct (createSprite_defaults logo_args demo_page)
    as (s & Hs & Hdir & _ & _ & _ & _ & _ & _ & _ & _ & Hpos & _).
  exists s. split; [exact Hs|].
  destruct (Hpos 600 450 [JS.VStr "../demo/koding.png"] eq_refl)
    as (Hx & Hy & Hi).
  repeat split; assumption.
Defined.

(** [createSprite(600, 450, path)] stands at (600, 450) and has one costume;
    [createSprite(path)] stands at (0, 0); a lone leading number is not a
    position, it is taken for an image source, and so are two leading
    values of which only the second is a number; without arguments the
    sprite stands at (0, 0) and has no costume. *)
Example createSprite_call_styles :
  (Sprite.x logo = 600 /\ Sprite.y logo = 450 /\
   Sprite.images logo = [logo_image]) /\
  (let s := newSprite demo_sketch [JS.VStr "a.png"] in
   Sprite.x s = 0 /\ Sprite.y s = 0 /\ length (Sprite.images s) = 1%nat) /\
  (let s := newSprite demo_sketch [JS.VNum 5; JS.VStr "a.png"] in
   Sprite.x s = 0 /\ Sprite.y s = 0 /\ length (Sprite.images s) = 2%nat) /\
  (let s := newSprite demo_sketch
              [JS.VStr "5"; JS.VNum 7; JS.VStr "a.png"] in
   Sprite.x s = 0 /\ Sprite.y s = 0 /\ length (Sprite.images s) = 3%nat) /\
  (let s := newSprite demo_sketch [] in
   Sprite.x s = 0 /\ Sprite.y s = 0 /\ Sprite.images s = []).
Proof. cbv zeta. repeat split. Qed.

(** ** The frame driver *)

Lemma callbacks_app (t1 t2 : list Obs) :
  callbacks (t1 ++ t2) = (callbacks t1 + callbacks t2)%nat.
Proof.
  induction t1 as [|[c|fn] t1 IH]; cbn; [reflexivity | exact IH | now rewrite IH].
Qed.

Lemma callbacks_drawn (cs : list P5.call) : callbacks (Drawn <$> cs) = 0%nat.
Proof. induction cs as [|c cs IH]; [reflexivity | exact IH]. Qed.

Lemma steps_cons (e : Event) (es : list Event) (lib : Lib) :
  steps (e :: es) lib
  = (fst (steps es (fst (step e lib))),
     snd (step e lib) ++ snd (steps es (fst (step e lib)))).
Proof.
  cbn [steps]. destruct (step e lib) as [lib1 t1]. cbn [fst snd].
  destruct (steps es lib1) as [lib2 t2]. reflexivity.
Qed.

Lemma run_cons (c : Cmd.t) (cs : list Cmd.t) (lib : Lib) :
  run (c :: cs) lib
  = (fst (run cs (fst (exec c lib))),
     snd (exec c lib) ++ snd (run cs (fst (exec c lib)))).
Proof.
  cbn [run]. destruct (exec c lib) as [lib1 t1]. cbn [fst snd].
  destruct (run cs lib1) as [lib2 t2]. reflexivity.
Qed.

(** User code never invokes the frame callback itself. *)
Lemma exec_no_callback (c : Cmd.t) (lib : Lib) :
  callbacks (snd (exec c lib)) = 0%nat.
Proof. destruct c; cbn [exec snd]; try reflexivity; apply callbacks_drawn. Qed.

Lemma run_no_callback (cs : list Cmd.t) (lib : Lib) :
  callbacks (snd (run cs lib)) = 0%nat.
Proof.
  revert lib. induction cs as [|c cs IH]; intros lib; [reflexivity|].
  rewrite run_cons. cbn [snd].
  rewrite callbacks_app, exec_no_callback, IH. reflexivity.
Qed.

(** Only [stop] writes to the p5 instance, and it clears the loop flag:
    nothing in the library sets the flag again. *)
Lemma exec_instance (c : Cmd.t) (lib : Lib) :
  sketchInstance (fst (exec c lib))
  = match c with
    | Cmd.stop => P5.noLoop (sketchInstance lib)
    | _ => sketchInstance lib
    end.
Proof.
  destruct c; try reflexivity.
  cbn [exec fst]. unfold setBackground.
  destruct (is_image_path val); reflexivity.
Qed.

Lemma exec_keeps_stopped (c : Cmd.t) (lib : Lib) :
  P5._loop (sketchInstance lib) = false ->
  P5._loop (sketchInstance (fst (exec c lib))) = false.
Proof. intros H. rewrite exec_instance. destruct c; auto. Qed.

Lemma run_keeps_stopped (cs : list Cmd.t) (lib : Lib) :
  P5._loop (sketchInstance lib) = false ->
  P5._loop (sketchInstance (fst (run cs lib))) = false.
Proof.
  revert lib. induction cs as [|c cs IH]; intros lib H; [exact H|].
  rewrite run_cons. cbn [fst]. apply IH, exec_keeps_stopped, H.
Qed.

Lemma run_stops (cs : list Cmd.t) (lib : Lib) :
  In Cmd.stop cs -> P5._loop (sketchInstance (fst (run cs lib))) = false.
Proof.
  revert lib. induction cs as [|c cs IH]; intros lib Hin; [destruct Hin|].
  rewrite run_cons. cbn [fst]. destruct Hin as [->|Hin].
  - apply run_keeps_stopped. reflexivity.
  - apply IH, Hin.
Qed.

(** In the stopped state an event invokes no callback and leaves the state
    stopped. *)
Lemma step_stopped (e : Event) (lib : Lib) :
  P5._loop (sketchInstance lib) = false ->
  P5._loop (sketchInstance (fst (step e lib))) = false /\
  callbacks (snd (step e lib)) = 0%nat.
Proof.
  intros H. destruct e as [c|r|k|k|]; cbn [step].
  - split; [apply exec_keeps_stopped, H | apply exec_no_callback].
  - split; [exact H | reflexivity].
  - split; [exact H | reflexivity].
  - split; [exact H | reflexivity].
  - unfold frame. rewrite H. split; [exact H | reflexivity].
Qed.

Lemma steps_stopped (es : list Event) (lib : Lib) :
  P5._loop (sketchInstance lib) = false ->
  P5._loop (sketchInstance (fst (steps es lib))) = false /\
  callbacks (snd (steps es lib)) = 0%nat.
Proof.
  revert lib. induction es as [|e es IH]; intros lib H; [split; auto|].
  rewrite steps_cons. cbn [fst snd].
  destruct (step_stopped e lib H) as [H1 H2].
  destruct (IH _ H1) as [H3 H4].
  rewrite callbacks_app, H2, H4. auto.
Qed.

(** C8.  From a call of [stop()] on, whatever user code calls and whatever
    the host delivers (frames, key events, canvas set-up), the frame
    callback is not invoked and the loop flag stays cleared. *)
Theorem stop_is_permanent (lib : Lib) (es : list Event) :
  callbacks (snd (steps (Call Cmd.stop :: es) lib)) = 0%nat /\
  P5._loop (sketchInstance (fst (steps (Call Cmd.stop :: es) lib))) = false.
Proof.
  rewrite steps_cons. cbn [fst snd step exec app].
  destruct (steps_stopped es (stop lib) eq_refl) as [H1 H2]. auto.
Qed.

(** While running, a frame invokes the registered callback exactly once. *)
Lemma frame_calls_back (lib : Lib) (fn : list Cmd.t) :
  P5._loop (sketchInstance lib) = true ->
  gameLoop lib = Some fn ->
  callbacks (snd (frame lib)) = 1%nat.
Proof.
  intros Hl Hg. unfold frame, draw. rewrite Hl, Hg.
  destruct (run fn lib) as [lib1 t1] eqn:Hrun. cbn [snd].
  rewrite !callbacks_app, !callbacks_drawn. cbn [callbacks].
  pose proof (run_no_callback fn lib) as Hn. rewrite Hrun in Hn. cbn in Hn.
  rewrite Hn. reflexivity.
Qed.

Lemma draw_instance (lib : Lib) :
  sketchInstance (fst (draw lib))
  = match gameLoop lib with
    | Some fn => sketchInstance (fst (run fn lib))
    | None => sketchInstance lib
    end.
Proof.
  unfold draw. destruct (gameLoop lib) as [fn|]; [|reflexivity].
  destruct (run fn lib) as [lib1 t1]. reflexivity.
Qed.

(** X18.  A callback that calls [stop()] runs to its end, the frame is
    drawn, and that invocation is the last: on a running page whose
    callback contains [stop()], a frame and whatever follows it invoke the
    callback once in all (frames being delivered as [frame] models them). *)
Lemma stop_inside_callback (lib : Lib) (fn : list Cmd.t) (es : list Event) :
  P5._loop (sketchInstance lib) = true ->
  gameLoop lib = Some fn ->
  In Cmd.stop fn ->
  callbacks (snd (steps (Frame :: es) lib)) = 1%nat.
Proof.
  intros Hl Hg Hin. rewrite steps_cons. cbn [snd step].
  rewrite callbacks_app, (frame_calls_back lib fn Hl Hg).
  assert (Hs : P5._loop (sketchInstance (fst (frame lib))) = false).
  { unfold frame. rewrite Hl, draw_instance, Hg. apply run_stops, Hin. }
  destruct (steps_stopped es _ Hs) as [_ ->]. reflexivity.
Qed.

(** The demo page: three frames invoke the callback three times; with a
    [stop()] after the first, once. *)
Example demo_frames_then_stop :
  callbacks (snd (steps [Frame; Frame; Frame] demo_running)) = 3%nat /\
  callbacks
    (snd (steps [Frame; Call Cmd.stop; Frame; Frame;
                 Call (Cmd.forever (Some spin)); Frame] demo_running))
  = 1%nat.
Proof.
  split.
  - rewrite !steps_cons. cbn [snd step].
    rewrite !callbacks_app.
    rewrite !(frame_calls_back _ spin) by reflexivity. reflexivity.
  - rewrite steps_cons. cbn [snd step].
    rewrite callbacks_app, (frame_calls_back _ spin) by reflexivity.
    rewrite steps_cons. cbn [fst snd step exec app].
    destruct (steps_stopped
                [Frame; Frame; Call (Cmd.forever (Some spin)); Frame]
                (stop (fst (frame demo_running))) eq_refl) as [_ ->].
    reflexivity.
Qed.

(** ** Headings *)

(** A full turn on the integer headings of ten turns either way: the
    heading plus 360 is another double, and [_draw] normalises both to the
    same one. *)
Lemma full_turn_integers :
  forallb (fun n => negb (JS.of_Z (n + 360) =? JS.of_Z n)
                    && PrimFloat.Leibniz.eqb
                         (normalize360 (JS.of_Z (n + 360)))
                         (normalize360 (JS.of_Z n)))
    integer_headings = true.
Proof. vm_compute. reflexivity. Qed.

(** None of the sprite's methods writes to the heading. *)
Lemma invoke_keeps_direction (math : Math.t) (sk : P5.t) (m : Method.t)
    (s : Sprite.t) :
  Sprite.direction (invoke math sk m s) = Sprite.direction s.
Proof. destruct m; reflexivity. Qed.

(** One tick of a page whose callback is [s.direction += delta] for the
    sprite at place [i]. *)
Lemma draw_turns (lib : Lib) (i : nat) (delta : float) :
  gameLoop lib = Some [Cmd.sprite i (Sprite.turn delta)] ->
  sprites (fst (draw lib)) = alter (Sprite.turn delta) i (sprites lib) /\
  gameLoop (fst (draw lib)) = gameLoop lib.
Proof.
  intros Hg. unfold draw. rewrite Hg. cbn. auto.
Qed.

Lemma ticks_turn (n : nat) (lib : Lib) (i : nat) (s : Sprite.t)
    (delta : float) :
  sprites lib !! i = Some s ->
  gameLoop lib = Some [Cmd.sprite i (Sprite.turn delta)] ->
  gameLoop (ticks n lib) = gameLoop lib /\
  exists s' : Sprite.t,
    sprites (ticks n lib) !! i = Some s' /\
    Sprite.direction s' = add_repeatedly n delta (Sprite.direction s).
Proof.
  intros Hs Hg. induction n as [|n [IHg (s' & IHs & IHd)]].
  - split; [reflexivity|]. exists s. split; [exact Hs | reflexivity].
  - change (ticks (S n) lib) with (fst (draw (ticks n lib))).
    rewrite <- IHg in Hg.
    destruct (draw_turns (ticks n lib) i delta Hg) as [Hsp Hg'].
    split; [rewrite Hg'; exact IHg|].
    exists (Sprite.turn delta s'). split.
    + rewrite Hsp, list_lookup_alter_eq, IHs. reflexivity.
    + cbn [Sprite.turn Sprite.direction]. rewrite IHd. reflexivity.
Qed.

Lemma heading_after_ticks (n : nat) (lib : Lib) (i : nat) (s : Sprite.t)
    (delta : float) :
  sprites lib !! i = Some s ->
  gameLoop lib = Some [Cmd.sprite i (Sprite.turn delta)] ->
  heading (ticks n lib) i
  = Some (add_repeatedly n delta (Sprite.direction s)).
Proof.
  intros Hs Hg.
  destruct (ticks_turn n lib i s delta Hs Hg) as (_ & s' & Hs' & Hd).
  unfold heading. rewrite Hs'. cbn. rewrite Hd. reflexivity.
Qed.

(** The frame driver reads the sprites and does not write to them: what a
    tick leaves in the registry is what the callback left there. *)
Lemma draw_keeps_sprites (lib : Lib) :
  sprites (fst (draw lib))
  = match gameLoop lib with
    | Some fn => sprites (fst (run fn lib))
    | None => sprites lib
    end.
Proof.
  unfold draw. destruct (gameLoop lib) as [fn|]; [|reflexivity].
  destruct (run fn lib) as [lib1 t1]. reflexivity.
Qed.

(** C9.  The heading is stored as written: the sprite's methods
    ([stepForward] among them) leave the field as it is, a tick without a
    callback leaves every sprite as it is, and when the frame callback adds
    1 to a sprite's heading, n ticks leave in the field the result of n
    additions of 1 in doubles.  From an integer heading k of up to ten
    turns either way, 360 ticks leave k + 360, which is not k and which
    [_draw] normalises to what it normalises k to. *)
Theorem heading_is_stored_raw :
  (forall (math : Math.t) (sk : P5.t) (d : float) (s : Sprite.t),
     Sprite.direction (Sprite.stepForward math sk d s) = Sprite.direction s)
  /\
  (forall (math : Math.t) (sk : P5.t) (m : Method.t) (s : Sprite.t),
     Sprite.direction (invoke math sk m s) = Sprite.direction s) /\
  (forall lib : Lib,
     gameLoop lib = None -> sprites (fst (draw lib)) = sprites lib) /\
  (forall (lib : Lib) (i : nat) (s : Sprite.t),
     sprites lib !! i = Some s ->
     gameLoop lib = Some [Cmd.sprite i (Sprite.turn 1)] ->
     (forall n : nat,
        heading (ticks n lib) i
        = Some (add_repeatedly n 1 (Sprite.direction s))) /\
     (forall k : Z,
        (-3600 <= k <= 3600)%Z ->
        Sprite.direction s = JS.of_Z k ->
        heading (ticks 360 lib) i = Some (JS.of_Z (k + 360)) /\
        (JS.of_Z (k + 360) =? JS.of_Z k) = false /\
        normalize360 (JS.of_Z (k + 360)) = normalize360 (JS.of_Z k))).
Proof.
  split; [reflexivity|]. split; [exact invoke_keeps_direction|].
  split; [intros lib Hg; rewrite draw_keeps_sprites, Hg; reflexivity|].
  intros lib i s Hs Hg. split.
  - intros n. apply heading_after_ticks; assumption.
  - intros k Hk Hd.
    pose proof (proj1 (forallb_forall _ _) add_360_integers k
                  (in_integer_headings k Hk)) as Hadd.
    pose proof (proj1 (forallb_forall _ _) full_turn_integers k
                  (in_integer_headings k Hk)) as Hturn.
    cbv beta in Hadd, Hturn.
    apply FloatAxioms.Leibniz.eqb_spec in Hadd.
    apply andb_prop in Hturn as [Hne Hnorm].
    apply negb_true_iff in Hne.
    apply FloatAxioms.Leibniz.eqb_spec in Hnorm.
    rewrite (heading_after_ticks 360 lib i s 1 Hs Hg), Hd, Hadd. auto.
Qed.

(** The demo page: the logo starts at heading 90 and, 360 ticks later, its
    stored heading is 450. *)
Lemma logo_heading_after_360_ticks :
  heading demo_running 0 = Some 90 /\
  heading (ticks 360 demo_running) 0 = Some 450.
Proof.
  split; [reflexivity|].
  destruct heading_is_stored_raw as (_ & _ & _ & Hticks).
  destruct (Hticks demo_running 0%nat (Sprite.setScale 0.5 logo)
              eq_refl eq_refl) as (_ & H360).
  exact (proj1 (H360 90%Z ltac:(split; discriminate) eq_refl)).
Defined.

(** The additions are rounded.  With the logo's heading set to 2^53, 360
    ticks of the callback that adds 1 leave the heading at 2^53: the sum
    2^53 + 1 rounds to 2^53.  The initial value plus 360 is itself a
    double, and another one. *)
Lemma heading_stays_at_2_to_53 :
  heading demo_huge_heading 0 = Some two_to_53 /\
  heading (ticks 360 demo_huge_heading) 0 = Some two_to_53 /\
  (JS.exact (two_to_53 + 360) == JS.exact two_to_53 + 360)%Q /\
  (two_to_53 + 360 =? two_to_53) = false.
Proof.
  split; [reflexivity|]. split; [|split].
  - rewrite (heading_after_ticks 360 demo_huge_heading 0
               (Sprite.set_direction two_to_53 (Sprite.setScale 0.5 logo))
               1 eq_refl eq_refl).
    vm_compute. reflexivity.
  - vm_compute. reflexivity.
  - reflexivity.
Qed.

(** ** Draw order *)

Lemma insert_by_perm {A : Type} (key : A -> Z) (a : A) (l : list A) :
  insert_by key a l ≡ₚ a :: l.
Proof.
  induction l as [|b l IH]; cbn; [reflexivity|].
  destruct (key a <=? key b)%Z; [reflexivity|].
  rewrite IH. apply Permutation_swap.
Qed.

Lemma sort_by_perm {A : Type} (key : A -> Z) (l : list A) :
  sort_by key l ≡ₚ l.
Proof.
  induction l as [|a l IH]; cbn; [reflexivity|].
  rewrite insert_by_perm, IH. reflexivity.
Qed.

Lemma insert_by_sorted {A : Type} (key : A -> Z) (a : A) (l : list A) :
  StronglySorted (ascending key) l ->
  StronglySorted (ascending key) (insert_by key a l).
Proof.
  induction 1 as [|b l Hl IH Hb]; cbn.
  - repeat constructor.
  - destruct (Z.leb_spec (key a) (key b)) as [Hab|Hab].
    + constructor; [constructor; assumption|].
      constructor; [exact Hab|].
      eapply Forall_impl; [exact Hb|].
      unfold ascending. intros c Hc. lia.
    + constructor; [exact IH|].
      rewrite insert_by_perm. constructor; [unfold ascending; lia | exact Hb].
Qed.

(** Inserting keeps the order of the elements of every single layer, the
    new element going in front of its equals. *)
Lemma insert_by_layer {A : Type} (key : A -> Z) (k : Z) (a : A) (l : list A) :
  filter (fun b => key b = k) (insert_by key a l)
  = filter (fun b => key b = k) (a :: l).
Proof.
  induction l as [|b l IH]; cbn [insert_by]; [reflexivity|].
  destruct (Z.leb_spec (key a) (key b)) as [Hab|Hab]; [reflexivity|].
  rewrite filter_cons, IH, !filter_cons.
  destruct (decide (key b = k)), (decide (key a = k)); try reflexivity.
  lia.
Qed.

(** X1.  The order a registry is walked in: the sorted copy holds the same
    objects, in ascending order of the key, and objects with the same key
    keep the order they have in the registry. *)
Theorem sort_by_stable {A : Type} (key : A -> Z) (l : list A) :
  sort_by key l ≡ₚ l /\
  StronglySorted (ascending key) (sort_by key l) /\
  forall k : Z,
    filter (fun a => key a = k) (sort_by key l)
    = filter (fun a => key a = k) l.
Proof.
  split; [apply sort_by_perm|]. split.
  - induction l as [|a l IH]; cbn; [constructor|].
    apply insert_by_sorted, IH.
  - intros k. induction l as [|a l IH]; [reflexivity|].
    cbn [sort_by foldr]. rewrite insert_by_layer, !filter_cons.
    fold (sort_by key l). rewrite IH. reflexivity.
Qed.

(** ** Registries *)

Lemma grown_refl (lib : Lib) : grown lib lib.
Proof. unfold grown. auto. Qed.

Lemma grown_trans (a b c : Lib) : grown a b -> grown b c -> grown a c.
Proof. unfold grown. intros (?&?&?) (?&?&?). repeat split; lia. Qed.

Lemma exec_grown (c : Cmd.t) (lib : Lib) : grown lib (fst (exec c lib)).
Proof.
  destruct c; try apply grown_refl; unfold grown; cbn;
    rewrite ?length_app, ?length_alter; cbn; try (repeat split; lia).
  unfold setBackground. destruct (is_image_path val); cbn; auto.
Qed.

Lemma run_grown (cs : list Cmd.t) (lib : Lib) : grown lib (fst (run cs lib)).
Proof.
  revert lib. induction cs as [|c cs IH]; intros lib; [apply grown_refl|].
  rewrite run_cons. cbn [fst].
  eapply grown_trans; [apply exec_grown | apply IH].
Qed.

Lemma draw_state (lib : Lib) :
  fst (draw lib)
  = with_inputBoxes
      (fmap (InputBox._sync (sketchInstance (after_callback lib))))
      (after_callback lib).
Proof.
  unfold draw, after_callback. destruct (gameLoop lib) as [fn|]; [|reflexivity].
  destruct (run fn lib) as [lib1 t1]. reflexivity.
Qed.

Lemma draw_grown (lib : Lib) : grown lib (fst (draw lib)).
Proof.
  rewrite draw_state.
  eapply grown_trans with (b := after_callback lib).
  - unfold after_callback. destruct (gameLoop lib); [apply run_grown | apply grown_refl].
  - unfold grown. cbn. rewrite length_fmap. auto.
Qed.

Lemma step_grown (e : Event) (lib : Lib) : grown lib (fst (step e lib)).
Proof.
  destruct e as [c|r|k|k|]; cbn [step fst].
  - apply exec_grown.
  - unfold grown. cbn. auto.
  - unfold grown. cbn. auto.
  - unfold grown. cbn. auto.
  - unfold frame.
    destruct (P5._loop (sketchInstance lib)); [apply draw_grown | apply grown_refl].
Qed.

(** X2.  Registries only grow: whatever user code calls and whatever the
    host delivers, no sprite, text box or input box ever leaves its
    registry, so a place in a registry names an object for good. *)
Theorem registries_only_grow (es : list Event) (lib : Lib) :
  grown lib (fst (steps es lib)) /\
  forall i : nat,
    (is_Some (sprites lib !! i) -> is_Some (sprites (fst (steps es lib)) !! i)) /\
    (is_Some (textBoxes lib !! i) ->
     is_Some (textBoxes (fst (steps es lib)) !! i)) /\
    (is_Some (inputBoxes lib !! i) ->
     is_Some (inputBoxes (fst (steps es lib)) !! i)).
Proof.
  assert (H : grown lib (fst (steps es lib))).
  { revert lib. induction es as [|e es IH]; intros lib; [apply grown_refl|].
    rewrite steps_cons. cbn [fst].
    eapply grown_trans; [apply step_grown | apply IH]. }
  split; [exact H|]. destruct H as (Hs & Ht & Hi).
  intros i. rewrite !lookup_lt_is_Some. repeat split; lia.
Qed.

(** ** The trace of a frame *)

(** A frame: clear, background, the callback and what it draws, the
    sprites by layer, the text boxes by layer, all taken from the state the
    callback leaves. *)
Lemma draw_trace (lib : Lib) :
  snd (draw lib)
  = (Drawn <$> [P5.clear; background_call lib])
      ++ callback_trace lib
      ++ (Drawn <$>
            (sort_by Sprite.layer (sprites (after_callback lib))
               ≫= Sprite._draw (sketchInstance (after_callback lib)))
            ++ (sort_by TextBox.layer (textBoxes (after_callback lib))
                  ≫= TextBox._draw)).
Proof.
  unfold draw, callback_trace, after_callback, background_call.
  destruct (gameLoop lib) as [fn|]; [|reflexivity].
  destruct (run fn lib) as [lib1 t1]. reflexivity.
Qed.

Lemma calls_app (t1 t2 : list Obs) : calls (t1 ++ t2) = calls t1 ++ calls t2.
Proof. apply omap_app. Qed.

Lemma calls_drawn (cs : list P5.call) : calls (Drawn <$> cs) = cs.
Proof.
  induction cs as [|c cs IH]; [reflexivity|].
  change (calls (Drawn <$> c :: cs)) with (c :: calls (Drawn <$> cs)).
  rewrite IH. reflexivity.
Qed.

Lemma invoked_app (t1 t2 : list Obs) :
  invoked (t1 ++ t2) = invoked t1 ++ invoked t2.
Proof. apply omap_app. Qed.

Lemma invoked_drawn (cs : list P5.call) : invoked (Drawn <$> cs) = [].
Proof. induction cs as [|c cs IH]; [reflexivity | exact IH]. Qed.

(** User code draws through [drawText], [pen] and [createSound] only. *)
Lemma exec_trace_drawn (c : Cmd.t) (lib : Lib) :
  exists cs : list P5.call,
    snd (exec c lib) = Drawn <$> cs /\
    drawn_images cs = [] /\
    forall d : nat, saved cs d = Some d.
Proof.
  destruct c; cbn [exec snd];
    first [ exists []; repeat split; reflexivity
          | eexists; repeat split; reflexivity ].
Qed.

Lemma saved_app (t1 t2 : list P5.call) (d : nat) :
  saved (t1 ++ t2) d = saved t1 d ≫= saved t2.
Proof.
  revert d. induction t1 as [|c t1 IH]; intros d; [reflexivity|].
  destruct c; cbn [app saved sets_state andb]; try apply IH;
    destruct d; cbn [Nat.eqb mbind option_bind]; first [reflexivity | apply IH].
Qed.

Lemma saved_bind {A : Type} (f : A -> list P5.call) (l : list A) :
  (forall a d, saved (f a) d = Some d) ->
  forall d : nat, saved (l ≫= f) d = Some d.
Proof.
  intros Hf. induction l as [|a l IH]; intros d; [reflexivity|].
  cbn. rewrite saved_app, Hf. cbn. apply IH.
Qed.

Lemma run_trace_drawn (cs : list Cmd.t) (lib : Lib) :
  exists tr : list P5.call,
    snd (run cs lib) = Drawn <$> tr /\
    drawn_images tr = [] /\
    forall d : nat, saved tr d = Some d.
Proof.
  revert lib. induction cs as [|c cs IH]; intros lib.
  - exists []. repeat split.
  - rewrite run_cons. cbn [snd].
    destruct (exec_trace_drawn c lib) as (t1 & -> & Hi1 & Hs1).
    destruct (IH (fst (exec c lib))) as (t2 & -> & Hi2 & Hs2).
    exists (t1 ++ t2). rewrite fmap_app. split; [reflexivity|]. split.
    + unfold drawn_images in *. rewrite omap_app, Hi1, Hi2. reflexivity.
    + intros d. rewrite saved_app, Hs1. cbn. apply Hs2.
Qed.

Lemma sprite_draw_saved (sk : P5.t) (s : Sprite.t) (d : nat) :
  saved (Sprite._draw sk s) d = Some d.
Proof.
  unfold Sprite._draw, Sprite.orient.
  destruct (Sprite.hidden s); [reflexivity|].
  destruct (Sprite.costume s); [|reflexivity].
  repeat match goal with |- context [if ?c then _ else _] => destruct c end;
    reflexivity.
Qed.

Lemma textbox_draw_saved (b : TextBox.t) (d : nat) :
  saved (TextBox._draw b) d = Some d.
Proof. unfold TextBox._draw. destruct (TextBox.hidden b); reflexivity. Qed.

(** X3.  No frame leaks drawing state: in the calls of a frame, whatever
    the callback draws with [pen] and [drawText] included, every [push] is
    closed by a [pop], no [pop] comes without its [push], and every call
    that changes the transform or a style comes between a [push] and its
    [pop]; the same holds for the calls of any single statement of user
    code. *)
Theorem frame_is_balanced (lib : Lib) :
  balanced (calls (snd (draw lib))) /\
  forall c : Cmd.t, balanced (calls (snd (exec c lib))).
Proof.
  unfold balanced. split.
  - rewrite draw_trace, !calls_app, !calls_drawn.
    assert (Hcb : forall d, saved (calls (callback_trace lib)) d = Some d).
    { unfold callback_trace. destruct (gameLoop lib) as [fn|]; [|reflexivity].
      destruct (run_trace_drawn fn lib) as (tr & -> & _ & Hs).
      intros d. cbn. fold (calls (Drawn <$> tr)). rewrite calls_drawn.
      apply Hs. }
    assert (Hbg : forall d, saved [P5.clear; background_call lib] d = Some d).
    { intros d. unfold background_call.
      destruct (backdropImage lib); [reflexivity|].
      destruct (JS.neq_null (bgColor lib)); reflexivity. }
    rewrite saved_app, Hbg. cbn [mbind option_bind].
    rewrite saved_app, Hcb. cbn [mbind option_bind].
    rewrite saved_app, (saved_bind _ _ (sprite_draw_saved _)).
    cbn [mbind option_bind].
    apply (saved_bind _ _ textbox_draw_saved).
  - intros c. destruct (exec_trace_drawn c lib) as (cs & -> & _ & Hs).
    rewrite calls_drawn. apply Hs.
Qed.

(** A line drawn without saving the context first would not pass, the
    stroke colour would stay set; [pen.drawLine] saves and restores. *)
Example unsaved_stroke_is_not_balanced :
  saved [P5.stroke (JS.VStr "#fff"); P5.line 0 0 10 10] 0 = None /\
  saved [P5.pop] 0 = None /\
  saved [P5.push] 0 = Some 1%nat /\
  balanced (Pen.drawLine (Pen.mk (JS.VStr "#fff") (JS.VStr "#fff")) 0 0 10 10).
Proof. repeat split. Qed.

Lemma drawn_images_app (t1 t2 : list P5.call) :
  drawn_images (t1 ++ t2) = drawn_images t1 ++ drawn_images t2.
Proof. apply omap_app. Qed.

Lemma sprite_draw_images (sk : P5.t) (s : Sprite.t) :
  drawn_images (Sprite._draw sk s) = option_list (appearance s).
Proof.
  unfold Sprite._draw, appearance.
  destruct (Sprite.hidden s); [reflexivity|].
  destruct (Sprite.costume s) as [img|]; [|reflexivity].
  rewrite !drawn_images_app, orient_draws_no_image. reflexivity.
Qed.

Lemma sprites_draw_images (sk : P5.t) (l : list Sprite.t) :
  drawn_images (l ≫= Sprite._draw sk) = omap appearance l.
Proof.
  induction l as [|s l IH]; [reflexivity|].
  cbn [mbind list_bind]. rewrite drawn_images_app, sprite_draw_images, IH.
  cbn [omap list_omap]. destruct (appearance s); reflexivity.
Qed.

Lemma textboxes_draw_images (l : list TextBox.t) :
  drawn_images (l ≫= TextBox._draw) = [].
Proof.
  induction l as [|b l IH]; [reflexivity|].
  cbn [mbind list_bind]. rewrite drawn_images_app, IH.
  unfold TextBox._draw. destruct (TextBox.hidden b); reflexivity.
Qed.

(** X4.  The images of a frame: the backdrop, if one is set, stretched to
    the canvas size; then one image for each sprite that is shown and has a
    costume, in ascending layer order (creation order within a layer), at
    its override or scaled size.  The sprites are those the callback leaves,
    so what it creates, moves, hides or shows counts in the same frame;
    hidden sprites, text boxes and the callback's own drawing add none. *)
Theorem frame_images (lib : Lib) :
  drawn_images (calls (snd (draw lib)))
  = backdrop_appearance lib
      ++ omap appearance
           (sort_by Sprite.layer (sprites (after_callback lib))).
Proof.
  rewrite draw_trace, !calls_app, !calls_drawn, !drawn_images_app.
  rewrite sprites_draw_images, textboxes_draw_images, app_nil_r.
  assert (Hcb : drawn_images (calls (callback_trace lib)) = []).
  { unfold callback_trace. destruct (gameLoop lib) as [fn|]; [|reflexivity].
    destruct (run_trace_drawn fn lib) as (tr & -> & Hi & _).
    cbn. fold (calls (Drawn <$> tr)). rewrite calls_drawn. exact Hi. }
  rewrite Hcb. cbn [app]. f_equal.
  unfold background_call, backdrop_appearance.
  destruct (backdropImage lib); [reflexivity|].
  destruct (JS.neq_null (bgColor lib)); reflexivity.
Qed.


(** ** Background and callback in a frame *)

Lemma draw_starts (lib : Lib) :
  take 2 (calls (snd (draw lib))) = [P5.clear; background_call lib].
Proof. rewrite draw_trace, calls_app, calls_drawn. reflexivity. Qed.

(** X5.  What the next frame paints first after [setBackground(val)]: it
    clears, then draws the image loaded from [val], centred and stretched to
    the canvas, when [val] names an image; the default grey 30 when [val]
    is [null] or [undefined]; and the colour [val] otherwise. *)
Theorem frame_background (val : JS.value) (lib : Lib) :
  let lib' := setBackground val lib in
  let sk := sketchInstance lib in
  (names_image val ->
     take 2 (calls (snd (draw lib')))
     = [P5.clear;
        P5.image (P5.loadImage sk val) (P5.width sk / 2) (P5.height sk / 2)
          (P5.width sk) (P5.height sk)]) /\
  (val = JS.VNull \/ val = JS.VUndefined ->
     take 2 (calls (snd (draw lib')))
     = [P5.clear; P5.background (JS.VNum 30)]) /\
  (~ names_image val -> val <> JS.VNull -> val <> JS.VUndefined ->
     take 2 (calls (snd (draw lib'))) = [P5.clear; P5.background val]).
Proof.
  cbv zeta. rewrite draw_starts. unfold background_call, setBackground.
  destruct (is_image_path val) eqn:Hp.
  - apply is_image_path_spec in Hp. cbn. split; [|split].
    + reflexivity.
    + destruct Hp as (s & -> & _). intros [H|H]; discriminate H.
    + intros Hn. contradiction.
  - assert (Hn : ~ names_image val).
    { intros H. apply is_image_path_spec in H. congruence. }
    cbn. split; [|split].
    + intros H. contradiction.
    + intros [->| ->]; reflexivity.
    + intros _ H1 H2. destruct val; cbn; congruence.
Qed.

(** The demo's ['#222'], an image path, and [null]. *)
Lemma frame_background_examples :
  take 2 (calls (snd (draw (setBackground (JS.VStr "#222") demo_ready))))
  = [P5.clear; P5.background (JS.VStr "#222")] /\
  take 2 (calls (snd (draw (setBackground (JS.VStr "sky.jpeg") demo_ready))))
  = [P5.clear;
     P5.image (demo_loader (JS.VStr "sky.jpeg")) (1280 / 2) (720 / 2)
       1280 720] /\
  take 2 (calls (snd (draw (setBackground JS.VNull demo_ready))))
  = [P5.clear; P5.background (JS.VNum 30)].
Proof.
  assert (Himg : names_image (JS.VStr "sky.jpeg")).
  { apply is_image_path_spec. reflexivity. }
  assert (Hcol : ~ names_image (JS.VStr "#222")).
  { intros H. apply is_image_path_spec in H. discriminate H. }
  split; [|split].
  - apply (proj2 (proj2 (frame_background (JS.VStr "#222") demo_ready)));
      [exact Hcol | discriminate | discriminate].
  - exact (proj1 (frame_background (JS.VStr "sky.jpeg") demo_ready) Himg).
  - apply (proj1 (proj2 (frame_background JS.VNull demo_ready))). auto.
Defined.

(** X6.  The callback slot holds one function: a tick invokes the function
    registered last, exactly once, and none when [forever] was last given
    [null]; a function that a running callback registers is not invoked in
    that tick, and statements of user code never invoke one. *)
Theorem one_callback_per_tick (lib : Lib) :
  invoked (snd (draw lib))
  = match gameLoop lib with Some fn => [fn] | None => [] end /\
  (forall f g : option (list Cmd.t),
     invoked (snd (draw (forever g (forever f lib))))
     = match g with Some fn => [fn] | None => [] end) /\
  (forall cs : list Cmd.t, invoked (snd (run cs lib)) = []).
Proof.
  assert (Hrun : forall cs l, invoked (snd (run cs l)) = []).
  { intros cs l. destruct (run_trace_drawn cs l) as (tr & -> & _).
    apply invoked_drawn. }
  assert (Hdraw : forall l,
             invoked (snd (draw l))
             = match gameLoop l with Some fn => [fn] | None => [] end).
  { intros l. rewrite draw_trace, !invoked_app, !invoked_drawn.
    unfold callback_trace. destruct (gameLoop l) as [fn|]; [|reflexivity].
    cbn. fold (invoked (snd (run fn l))). rewrite Hrun. reflexivity. }
  split; [apply Hdraw|]. split; [|intros cs; apply Hrun].
  intros f g. rewrite Hdraw. reflexivity.
Qed.

(** ** Input boxes across frames *)

Lemma run_keeps_canvas (cs : list Cmd.t) (lib : Lib) :
  P5.canvas (sketchInstance (fst (run cs lib))) = P5.canvas (sketchInstance lib).
Proof.
  revert lib. induction cs as [|c cs IH]; intros lib; [reflexivity|].
  rewrite run_cons. cbn [fst]. rewrite IH, exec_instance.
  destruct c; reflexivity.
Qed.

Lemma recalc_aligned (sk : P5.t) (rect : DOMRect.t) (ib : InputBox.t) :
  P5.canvas sk = Some rect -> aligned rect (InputBox._recalc sk ib).
Proof.
  intros Hc. unfold aligned, placed, InputBox._recalc. rewrite Hc. cbn.
  repeat split.
Qed.

(** X7.  When the canvas exists, a tick leaves every input box of the
    registry aligned with it: boxes made before the canvas existed, boxes
    the callback created or moved in this tick, and boxes whose canvas has
    moved on the screen since the last tick. *)
Theorem tick_aligns_input_boxes (lib : Lib) (rect : DOMRect.t) :
  P5.canvas (sketchInstance lib) = Some rect ->
  Forall (aligned rect) (inputBoxes (fst (draw lib))).
Proof.
  intros Hc. rewrite draw_state. cbn [with_inputBoxes inputBoxes].
  apply Forall_fmap, Forall_true. intros ib. cbn.
  apply recalc_aligned.
  unfold after_callback. destruct (gameLoop lib) as [fn|]; [|exact Hc].
  rewrite run_keeps_canvas. exact Hc.
Qed.

(** A box created before [setup] is not positioned; the first tick after
    [setup] puts it at left 400, top 704. *)
Lemma early_box_is_aligned_by_first_tick :
  (Element.left <$> (InputBox.el <$> inputBoxes early_box_page !! 0%nat))
  = Some None /\
  Forall (aligned at_origin)
    (inputBoxes (fst (draw (fst (setup at_origin early_box_page))))) /\
  length (inputBoxes (fst (draw (fst (setup at_origin early_box_page)))))
  = 1%nat.
Proof.
  split; [reflexivity|]. split; [|reflexivity].
  exact (tick_aligns_input_boxes (fst (setup at_origin early_box_page))
           at_origin eq_refl).
Defined.

(** X8.  Without a canvas nothing is written to the element: a new box is
    left unpositioned, and [moveTo] and [resize] only record the new logical
    centre and size, which the next alignment will use. *)
Theorem no_canvas_no_alignment (sk : P5.t) (ib : InputBox.t) :
  P5.canvas sk = None ->
  (forall (x y w h : float) (placeholder : option string) (layer : option Z),
     let new := InputBox.constructor sk x y w h placeholder layer in
     unpositioned (InputBox.el new) /\
     (InputBox._cx new, InputBox._cy new, InputBox._w new, InputBox._h new)
     = (x, y, w, h)) /\
  (forall x y : float,
     InputBox.moveTo sk x y ib
     = InputBox.mk (InputBox.layer ib) (InputBox.el ib) x y
         (InputBox._w ib) (InputBox._h ib)) /\
  (forall w h : float,
     InputBox.resize sk w h ib
     = InputBox.mk (InputBox.layer ib) (InputBox.el ib) (InputBox._cx ib)
         (InputBox._cy ib) w h) /\
  InputBox._sync sk ib = ib.
Proof.
  intros Hc.
  unfold InputBox.constructor, InputBox.moveTo, InputBox.resize,
    InputBox._sync, unpositioned.
  split; [|split; [|split]]; intros; rewrite !recalc_without_canvas by exact Hc;
    cbn; auto.
Qed.

Lemma no_canvas_on_the_demo_page :
  InputBox._sync (sketchInstance demo_page)
    (InputBox.constructor (sketchInstance demo_page) 600 720 400 32 None None)
  = InputBox.constructor (sketchInstance demo_page) 600 720 400 32 None None.
Proof.
  exact (proj2 (proj2 (proj2
           (no_canvas_no_alignment (sketchInstance demo_page)
              (InputBox.constructor (sketchInstance demo_page)
                 600 720 400 32 None None)
              eq_refl)))).
Defined.

(** ** Costumes and rotation styles *)

(** X13.  For an index that is not negative and a sprite with at least one
    costume, the costume is periodic in the index: an index below the
    number N of costumes selects the costume at that position, and adding N
    to an index selects the same costume. *)
Theorem costume_periodic (s : Sprite.t) (k : Z) :
  Sprite.images s <> [] ->
  (0 <= k)%Z ->
  let n := Z.of_nat (length (Sprite.images s)) in
  Sprite.costume (Sprite.set_costumeId (k + n) s)
  = Sprite.costume (Sprite.set_costumeId k s) /\
  is_Some (Sprite.costume (Sprite.set_costumeId k s)) /\
  ((k < n)%Z ->
   Sprite.costume (Sprite.set_costumeId k s)
   = Sprite.images s !! Z.to_nat k).
Proof.
  intros Himg Hk n.
  assert (Hn : (0 < n)%Z).
  { unfold n. destruct (Sprite.images s); [congruence | cbn [length]; lia]. }
  rewrite !costume_wraps by (cbn; first [exact Himg | lia]).
  cbn [Sprite.set_costumeId Sprite.images Sprite.costumeId]. fold n.
  pose proof (Z.mod_pos_bound k n Hn) as Hb.
  split; [|split].
  - replace (k + n)%Z with (k + 1 * n)%Z by lia.
    rewrite Z.mod_add by lia. reflexivity.
  - apply lookup_lt_is_Some. unfold n in *. lia.
  - intros Hlt. rewrite Z.mod_small by lia. reflexivity.
Qed.

(** Three costumes: indices 1, 4 and 7 all select the second one. *)
Lemma walker_costumes_cycle :
  Sprite.costume (Sprite.set_costumeId 4 walker)
  = Sprite.costume (Sprite.set_costumeId 1 walker) /\
  Sprite.costume (Sprite.set_costumeId 1 walker)
  = Some (demo_loader (JS.VStr "walk1.png")).
Proof.
  split.
  - exact (proj1 (costume_periodic walker 1 ltac:(discriminate) ltac:(lia))).
  - exact (proj2 (proj2 (costume_periodic walker 1 ltac:(discriminate)
                           ltac:(lia))) ltac:(reflexivity)).
Defined.

(** X14.  A sprite without costumes (created without image sources) is
    never drawn, whatever its costume index, visibility or style, and
    whatever methods are called on it. *)
Theorem no_costume_no_drawing (math : Math.t) (sk : P5.t) (s : Sprite.t)
    (ms : list Method.t) :
  Sprite.images s = [] ->
  Sprite._draw sk (invoke_all math sk ms s) = [] /\
  appearance (invoke_all math sk ms s) = None.
Proof.
  intros Himg.
  assert (Hc : Sprite.costume (invoke_all math sk ms s) = None).
  { revert s Himg. induction ms as [|m ms IH]; intros s Himg.
    - unfold Sprite.costume. cbn. rewrite Himg. reflexivity.
    - rewrite invoke_all_cons. apply IH. destruct m; exact Himg. }
  unfold Sprite._draw, appearance. rewrite Hc.
  destruct (Sprite.hidden _); split; reflexivity.
Qed.

(** [createSprite(10, 20)]: two numbers and no image source. *)
Lemma sprite_without_sources_is_not_drawn :
  Sprite._draw demo_sketch
    (invoke_all demo_math demo_sketch [Method.setSize 50 50]
       (newSprite (sketchInstance demo_page) [JS.VNum 10; JS.VNum 20]))
  = [].
Proof.
  exact (proj1 (no_costume_no_drawing demo_math demo_sketch
                  (newSprite (sketchInstance demo_page)
                     [JS.VNum 10; JS.VNum 20])
                  [Method.setSize 50 50] eq_refl)).
Defined.

(** X15.  A rotation style other than ['free'] and ['flipped'] (the test
    is case-sensitive) neither rotates nor mirrors: the sprite is drawn
    upright whatever its heading. *)
Theorem other_style_draws_upright (sk : P5.t) (s : Sprite.t)
    (img : Image.t) :
  Sprite.hidden s = false ->
  Sprite.costume s = Some img ->
  Sprite.rotationStyle s <> "free"%string ->
  Sprite.rotationStyle s <> "flipped"%string ->
  rotations (Sprite._draw sk s) = [] /\
  scalings (Sprite._draw sk s) = [] /\
  forall d : float,
    Sprite._draw sk (Sprite.set_direction d s) = Sprite._draw sk s.
Proof.
  intros Hh Hc Hfree Hflip.
  assert (Ho : forall d, Sprite.orient sk (Sprite.set_direction d s) = []).
  { intros d. unfold Sprite.orient. cbn.
    destruct (String.eqb_spec (Sprite.rotationStyle s) "free"); [contradiction|].
    destruct (String.eqb_spec (Sprite.rotationStyle s) "flipped");
      [contradiction | reflexivity]. }
  assert (Ho' : Sprite.orient sk s = []).
  { specialize (Ho (Sprite.direction s)). destruct s; exact Ho. }
  rewrite (draw_shown sk s img Hh Hc), Ho'.
  split; [reflexivity|]. split; [reflexivity|].
  intros d.
  rewrite (draw_shown sk (Sprite.set_direction d s) img Hh Hc), Ho.
  reflexivity.
Qed.

(** ['Flipped'] with a capital letter is not the flip-only style. *)
Lemma capitalised_style_draws_upright :
  scalings
    (Sprite._draw demo_sketch
       (Sprite.set_direction 180 (Sprite.set_rotationStyle "Flipped" logo)))
  = [] /\
  rotations
    (Sprite._draw demo_sketch
       (Sprite.set_direction 180 (Sprite.set_rotationStyle "Flipped" logo)))
  = [].
Proof.
  destruct (other_style_draws_upright demo_sketch
              (Sprite.set_direction 180
                 (Sprite.set_rotationStyle "Flipped" logo))
              logo_image eq_refl eq_refl
              ltac:(discriminate) ltac:(discriminate)) as (Hr & Hs & _).
  split; assumption.
Defined.

(** ** Keyboard state *)


(** ** Text boxes *)

(** X17.  [createTextBox]: the new box goes to the end of the registry, is
    shown, on layer 0, at the given position with the given text; a style
    argument that is omitted ([undefined]) takes its default (white, size
    24, sans-serif), any other value, [null] included, is kept as given;
    and the box is drawn as one bracketed block with that text and style. *)
Theorem createTextBox_defaults (x y : float) (txt color size font : JS.value)
    (lib : Lib) :
  exists b : TextBox.t,
    textBoxes (fst (createTextBox x y txt color size font lib))
      !! snd (createTextBox x y txt color size font lib) = Some b /\
    TextBox.hidden b = false /\
    TextBox.layer b = 0%Z /\
    (color = JS.VUndefined -> TextBox.color b = JS.VStr "#fff") /\
    (color <> JS.VUndefined -> TextBox.color b = color) /\
    (size = JS.VUndefined -> TextBox.size b = JS.VNum 24) /\
    (size <> JS.VUndefined -> TextBox.size b = size) /\
    (font = JS.VUndefined -> TextBox.font b = JS.VStr "sans-serif") /\
    (font <> JS.VUndefined -> TextBox.font b = font) /\
    TextBox._draw b
    = [P5.push; P5.fill (TextBox.color b); P5.noStroke;
       P5.textSize (TextBox.size b); P5.textFont (TextBox.font b);
       P5.textAlign P5.CENTER P5.CENTER; P5.text txt x y; P5.pop].
Proof.
  exists (TextBox.constructor x y txt color size font). split.
  { cbn. apply list_lookup_middle. reflexivity. }
  cbn. repeat split; intros H; try (rewrite H; reflexivity);
    match goal with
    | |- JS.vparam _ ?v = _ => destruct v; cbn; congruence
    end.
Qed.

(** ** Stopping from inside the callback *)

(** The demo page with a callback that stops: three frames, one
    invocation. *)
Lemma one_shot_runs_once :
  callbacks (snd (steps [Frame; Frame; Frame] demo_one_shot)) = 1%nat.
Proof.
  apply (stop_inside_callback demo_one_shot one_shot [Frame; Frame]);
    [reflexivity | reflexivity | cbn; auto].
Defined.

(** ** Last write wins *)

(** X19.  Only the most recent [setBackground] matters: a call overwrites
    both background variables, so the state after two calls is the state
    after the second alone. *)
Theorem setBackground_last_wins (v1 v2 : JS.value) (lib : Lib) :
  setBackground v2 (setBackground v1 lib) = setBackground v2 lib.
Proof.
  unfold setBackground.
  destruct (is_image_path v1), (is_image_path v2); reflexivity.
Qed.

(** X20.  Alignment has no memory: with a canvas present, the element's
    place after [_recalc] depends on the current canvas rectangle and the
    logical centre and size only, not on where the element was before, so
    re-aligning is idempotent and a stale placement for an earlier canvas
    position is fully replaced. *)
Theorem recalc_forgets_history (sk1 sk2 : P5.t) (rect : DOMRect.t)
    (ib : InputBox.t) :
  P5.canvas sk2 = Some rect ->
  InputBox._recalc sk2 (InputBox._recalc sk1 ib) = InputBox._recalc sk2 ib /\
  InputBox._recalc sk2 (InputBox._recalc sk2 ib) = InputBox._recalc sk2 ib.
Proof.
  intros Hc. unfold InputBox._recalc. rewrite Hc.
  destruct (P5.canvas sk1); split; reflexivity.
Qed.

(** A box aligned at the origin, then re-aligned after a scroll of 30
    pixels: its top goes from 704 to 674. *)
Lemma realigned_after_scroll :
  let box := InputBox.constructor demo_canvas 600 720 400 32 None None in
  InputBox._recalc demo_canvas_scrolled box
  = InputBox.constructor demo_canvas_scrolled 600 720 400 32 None None.
Proof.
  cbv zeta. unfold InputBox.constructor.
  exact (proj1 (recalc_forgets_history demo_canvas demo_canvas_scrolled
                  (DOMRect.mk 0 (-30)) _ eq_refl)).
Defined.

